(** * Speculative prompt caching: a model of the notebook and its properties

    The notebook [misc/speculative_prompt_caching.ipynb] downloads two source
    files, wraps them in one cacheable context message, and compares a
    sequential request with a request whose cache was warmed by a
    one-token probe running while the user types.

    The development embeds the notebook's functions in a state-and-exception
    monad over
    - a heap of Python objects (dicts and lists are mutable and aliased),
    - a logical clock (the durations of all network operations are given by
      a [world], in the manner of an instrumented fake service),
    - a table of asyncio tasks,
    - the console output and a trace of the requests put on the wire. *)

From Stdlib Require Import ZArith Ascii String.
From stdpp Require Import gmap strings list sorting pretty.

Local Open Scope string_scope.
Local Open Scope list_scope.

(** ** Time *)

(** Logical clock ticks; [time.time()] reads the clock. *)
Abbreviation time := nat (only parsing).

(** ** Python values, objects and the heap *)

Abbreviation addr := nat (only parsing).

Inductive value :=
| VNone
| VInt (n : Z)
| VStr (s : string)
| VRef (a : addr).

(** Dicts keep their insertion order; every dict of the notebook has
    string keys. *)
Inductive object :=
| ODict (items : list (string * value))
| OList (elems : list value).

(** Objects are never freed; an address is a position in the heap. *)
Definition heap := list object.

Inductive exn :=
| KeyError (key : string)
| HTTPStatusError (status_code : nat) (url : string)
| TransportError (url : string)
| TimeoutException (url : string)
| APIError (message : string)
| TypeError
| InvalidStateError
| RecursionError.

(** What is put on the wire: the JSON tree an object graph serializes to. *)
#[warnings="-register-all"]
Inductive json :=
| JNull
| JInt (n : Z)
| JStr (s : string)
| JArray (elems : list json)
| JObject (items : list (string * json)).

(** [d[k] = v] on the items of a dict: an existing key keeps its position. *)
Fixpoint items_set (k : string) (v : value) (items : list (string * value))
  : list (string * value) :=
  match items with
  | [] => [(k, v)]
  | (k', v') :: rest =>
      if String.eqb k' k then (k, v) :: rest
      else (k', v') :: items_set k v rest
  end.

Fixpoint items_get {A} (k : string) (items : list (string * A)) : option A :=
  match items with
  | [] => None
  | (k', v) :: rest => if String.eqb k' k then Some v else items_get k rest
  end.

(** *** [copy.deepcopy] *)

(** The memo of [copy.deepcopy]: [id(x)] of every object met so far, with
    its copy. *)
Definition memo := list (addr * addr).

Fixpoint memo_get (a : addr) (m : memo) : option addr :=
  match m with
  | [] => None
  | (a', y) :: rest => if Nat.eqb a' a then Some y else memo_get a rest
  end.

Definition dict_append (y : addr) (k : string) (v : value) (h : heap) : heap :=
  match h !! y with
  | Some (ODict items) => <[y := ODict (items_set k v items)]> h
  | _ => h
  end.

Definition list_append (y : addr) (v : value) (h : heap) : heap :=
  match h !! y with
  | Some (OList elems) => <[y := OList (elems ++ [v])]> h
  | _ => h
  end.

Section deepcopy.
(** The copy of the children, given the copy function one level down. *)
Variable rec : value → memo * heap → option (value * (memo * heap)).

(** [for key, value in x.items(): y[key] = deepcopy(value, memo)] *)
Fixpoint deepcopy_items (y : addr) (items : list (string * value))
    (st : memo * heap) : option (memo * heap) :=
  match items with
  | [] => Some st
  | (k, v) :: rest =>
      match rec v st with
      | None => None
      | Some (v', (m, h)) => deepcopy_items y rest (m, dict_append y k v' h)
      end
  end.

(** [for a in x: y.append(deepcopy(a, memo))] *)
Fixpoint deepcopy_elems (y : addr) (elems : list value)
    (st : memo * heap) : option (memo * heap) :=
  match elems with
  | [] => Some st
  | v :: rest =>
      match rec v st with
      | None => None
      | Some (v', (m, h)) => deepcopy_elems y rest (m, list_append y v' h)
      end
  end.
End deepcopy.

(** [deepcopy(x, memo)]: atoms are returned as they are; a dict or list
    already in the memo yields its copy; otherwise an empty copy is
    allocated and registered in the memo before the children are copied
    into it.  [fuel] bounds the nesting depth. *)
Fixpoint deepcopy (fuel : nat) (x : value) (st : memo * heap)
  : option (value * (memo * heap)) :=
  match x with
  | VRef a =>
      let '(m, h) := st in
      match memo_get a m with
      | Some y => Some (VRef y, st)
      | None =>
          match fuel with
          | 0 => None
          | S fuel' =>
              let y := length h in
              match h !! a with
              | None => None
              | Some (ODict items) =>
                  match deepcopy_items (deepcopy fuel') y items
                          ((a, y) :: m, h ++ [ODict []]) with
                  | Some st' => Some (VRef y, st')
                  | None => None
                  end
              | Some (OList elems) =>
                  match deepcopy_elems (deepcopy fuel') y elems
                          ((a, y) :: m, h ++ [OList []]) with
                  | Some st' => Some (VRef y, st')
                  | None => None
                  end
              end
          end
      end
  | _ => Some (x, st)
  end.

(** *** Serialization of an object graph *)

Section serialize.
Variable rec : value → option json.

Fixpoint serialize_items (items : list (string * value))
  : option (list (string * json)) :=
  match items with
  | [] => Some []
  | (k, v) :: rest =>
      match rec v, serialize_items rest with
      | Some j, Some js => Some ((k, j) :: js)
      | _, _ => None
      end
  end.

Fixpoint serialize_elems (elems : list value) : option (list json) :=
  match elems with
  | [] => Some []
  | v :: rest =>
      match rec v, serialize_elems rest with
      | Some j, Some js => Some (j :: js)
      | _, _ => None
      end
  end.
End serialize.

Fixpoint serialize (fuel : nat) (h : heap) (v : value) : option json :=
  match v with
  | VNone => Some JNull
  | VInt n => Some (JInt n)
  | VStr s => Some (JStr s)
  | VRef a =>
      match fuel with
      | 0 => None
      | S fuel' =>
          match h !! a with
          | None => None
          | Some (ODict items) =>
              JObject <$> serialize_items (serialize fuel' h) items
          | Some (OList elems) =>
              JArray <$> serialize_elems (serialize fuel' h) elems
          end
      end
  end.

(** ** The outside world *)

(** A Python [str] received from the service, as its Unicode code points. *)
Definition text := list N.

Record datetime := {
  year : nat; month : nat; day : nat;
  hour : nat; minute : nat; second : nat; microsecond : nat
}.

Record http_response := { status_code : nat; body : string }.

(** An attribute read with [getattr(obj, name, default)]: it may be missing
    from the object, and when present it may hold [None]. *)
Inductive attribute :=
| Missing
| Attr (v : option Z).

Record usage := {
  input_tokens : Z;
  output_tokens : Z;
  cache_read_input_tokens : attribute;
  cache_creation_input_tokens : attribute
}.

(** The final message of a response; the notebook reads its usage only. *)
Record message := { msg_usage : usage }.

(** A request to the inference service, as serialized. *)
Record request := {
  req_messages : json;
  req_model : string;
  req_kwargs : list (string * json)
}.

(** An operation in flight: how long it takes and how it ends. *)
Record pending (A : Type) := { delay : time; outcome : exn + A }.
Arguments delay {A} _.
Arguments outcome {A} _.

(** A streamed response: the text deltas with the delay before each, the
    delay between the last delta and the end of the stream, and how the
    stream ends. *)
Record stream_reply := {
  chunks : list (time * text);
  closing : time;
  final : exn + message
}.

(** The environment of a run: the wall clock, the web server and the
    inference service, each answering as a function of what is sent and
    when. *)
Record world := {
  hz : nat;
  wall_clock : time → datetime;
  http_get : string → time → pending http_response;
  messages_create : request → time → pending message;
  messages_stream : request → time → stream_reply
}.

(** ** Program state *)

Inductive fragment :=
| Lit (s : string)
| Fixed2 (t : time)
| Fixed1 (t : time).

(** A printed line; the digits of a time printed with [.2f] or [.1f] are
    not interpreted. *)
Definition line := list fragment.

Inductive event :=
| HttpGet (t : time) (url : string)
| CreateSent (t : time) (r : request)
| StreamSent (t : time) (r : request)
| SleepDone (t : time)
| TaskDone (t : time) (id : nat) (r : exn + value).

(** [AsyncAnthropic()] *)
Inductive client := AsyncAnthropic.

(** The coroutine objects that are run as tasks. *)
Inductive task_code :=
| sample_one_token_call (c : client) (messages : value).

Inductive task :=
| Scheduled (code : task_code)
| Waiting (code : task_code) (wake : time) (reply : exn + message)
| Finished (at_time : time) (r : exn + value).

Record state := {
  clock : time;
  objects : heap;
  tasks : list task;
  stdout : list line;
  trace : list event
}.

Definition set_clock (t : time) (s : state) : state :=
  {| clock := t; objects := objects s; tasks := tasks s;
     stdout := stdout s; trace := trace s |}.
Definition set_objects (h : heap) (s : state) : state :=
  {| clock := clock s; objects := h; tasks := tasks s;
     stdout := stdout s; trace := trace s |}.
Definition set_tasks (ts : list task) (s : state) : state :=
  {| clock := clock s; objects := objects s; tasks := ts;
     stdout := stdout s; trace := trace s |}.
Definition set_stdout (out : list line) (s : state) : state :=
  {| clock := clock s; objects := objects s; tasks := tasks s;
     stdout := out; trace := trace s |}.
Definition set_trace (tr : list event) (s : state) : state :=
  {| clock := clock s; objects := objects s; tasks := tasks s;
     stdout := stdout s; trace := tr |}.

(** ** The monad of the notebook's code *)

Inductive result (A : Type) :=
| Ok (a : A)
| Raise (e : exn).
Arguments Ok {A} _.
Arguments Raise {A} _.

Definition M (A : Type) : Type := state → result A * state.

Global Instance M_ret : MRet M := λ A a s, (Ok a, s).
Global Instance M_bind : MBind M := λ A B f m s,
  match m s with
  | (Ok a, s') => f a s'
  | (Raise e, s') => (Raise e, s')
  end.

Definition raise {A} (e : exn) : M A := λ s, (Raise e, s).
Definition get : M state := λ s, (Ok s, s).
Definition modify (f : state → state) : M unit := λ s, (Ok tt, f s).

Definition print (l : line) : M unit :=
  modify (λ s, set_stdout (stdout s ++ [l]) s).
Definition emit (e : event) : M unit :=
  modify (λ s, set_trace (trace s ++ [e]) s).
Definition time_time : M time := λ s, (Ok (clock s), s).

(** Awaiting the outcome of a finished operation. *)
Definition settle {A} (r : exn + A) : M A :=
  match r with
  | inl e => raise e
  | inr a => mret a
  end.

(** [try: ... except Exception as e:] as used by the event loop, which
    stores what a task raises instead of propagating it. *)
Definition try_ {A} (m : M A) : M (exn + A) := λ s,
  match m s with
  | (Ok a, s') => (Ok (inr a), s')
  | (Raise e, s') => (Ok (inl e), s')
  end.

Fixpoint mapM {A B} (f : A → M B) (l : list A) : M (list B) :=
  match l with
  | [] => mret []
  | x :: rest => y ← f x; ys ← mapM f rest; mret (y :: ys)
  end.

Fixpoint foldM {A B} (f : B → A → M B) (acc : B) (l : list A) : M B :=
  match l with
  | [] => mret acc
  | x :: rest => acc' ← f acc x; foldM f acc' rest
  end.

(** ** Heap operations *)

Definition alloc (o : object) : M value := λ s,
  (Ok (VRef (length (objects s))), set_objects (objects s ++ [o]) s).

(** A dict display [{k1: v1, ...}] and a list display [[v1, ...]]. *)
Definition new_dict (items : list (string * value)) : M value :=
  alloc (ODict items).
Definition new_list (elems : list value) : M value :=
  alloc (OList elems).

(** [copy.deepcopy(x)] *)
Definition copy_deepcopy (x : value) : M value := λ s,
  match deepcopy (length (objects s)) x ([], objects s) with
  | Some (y, (_, h)) => (Ok y, set_objects h s)
  | None => (Raise RecursionError, s)
  end.

(** [d[k] = v] *)
Definition setitem (d : value) (k : string) (v : value) : M unit := λ s,
  match d with
  | VRef a =>
      match objects s !! a with
      | Some (ODict _) =>
          (Ok tt, set_objects (dict_append a k v (objects s)) s)
      | _ => (Raise TypeError, s)
      end
  | _ => (Raise TypeError, s)
  end.

(** [d[k]] *)
Definition getitem (d : value) (k : string) : M value := λ s,
  match d with
  | VRef a =>
      match objects s !! a with
      | Some (ODict items) =>
          match items_get k items with
          | Some v => (Ok v, s)
          | None => (Raise (KeyError k), s)
          end
      | _ => (Raise TypeError, s)
      end
  | _ => (Raise TypeError, s)
  end.

(** [l.append(v)] *)
Definition append (l : value) (v : value) : M unit := λ s,
  match l with
  | VRef a =>
      match objects s !! a with
      | Some (OList _) =>
          (Ok tt, set_objects (list_append a v (objects s)) s)
      | _ => (Raise TypeError, s)
      end
  | _ => (Raise TypeError, s)
  end.

Definition to_json (v : value) : M json := λ s,
  match serialize (length (objects s)) (objects s) v with
  | Some j => (Ok j, s)
  | None => (Raise RecursionError, s)
  end.

(** The request made of [messages=..., model=..., **kwargs]. *)
Definition build_request (messages : value) (model : string) (kwargs : value)
  : M request :=
  jm ← to_json messages;
  jk ← to_json kwargs;
  match jk with
  | JObject items =>
      mret {| req_messages := jm; req_model := model; req_kwargs := items |}
  | _ => raise TypeError
  end.

(** ** Configuration constants *)

Definition MODEL : string := "claude-3-5-sonnet-20241022".

Definition btree_h_url : string :=
  "https://sqlite.org/src/raw/18e5e7b2124c23426a283523e5f31a4bff029131b795bb82391f9d2f3136fc50?at=btree.h".
Definition btree_c_url : string :=
  "https://sqlite.org/src/raw/63ca6b647342e8cef643863cd0962a542f133e1069460725ba4461dcda92b03c?at=btree.c".

(** The value of [SQLITE_SOURCES] in the notebook; the functions below take
    the resource set as a parameter. *)
Definition SQLITE_SOURCES_notebook : list (string * string) :=
  [("btree.h", btree_h_url); ("btree.c", btree_c_url)].

Definition system_instruction : string :=
  "You are an expert systems programmer helping analyze database internals.".

(** The heap after the configuration cell has run: the nested
    [extra_headers] dict is built first, then the dict that holds it. *)
Definition module_heap : heap :=
  [ODict [("anthropic-beta", VStr "prompt-caching-2024-07-31")];
   ODict [("system", VStr system_instruction);
          ("max_tokens", VInt 4096);
          ("temperature", VInt 0);
          ("extra_headers", VRef 0)]].

Definition DEFAULT_CLIENT_ARGS : value := VRef 1.

Definition initial_state : state :=
  {| clock := 0; objects := module_heap; tasks := []; stdout := [];
     trace := [] |}.

(** A coroutine with one suspension point: the code up to its [await],
    which leaves an operation in flight, and the code that runs with the
    operation's result. *)
Record coroutine (X A : Type) := Co {
  co_start : M (pending X);
  co_resume : X → M A
}.
Arguments Co {X A} _ _.
Arguments co_start {X A} _.
Arguments co_resume {X A} _.

(** ** Strings *)

Definition NL : string := String "010"%char "".
Definition TAB : string := String "009"%char "".

(** [Py_UNICODE_ISSPACE]: the code points [str.strip()] removes. *)
Definition Py_UNICODE_ISSPACE (c : N) : bool :=
  ((9 <=? c) && (c <=? 13) || (28 <=? c) && (c <=? 32)
   || (c =? 133) || (c =? 160) || (c =? 5760)
   || (8192 <=? c) && (c <=? 8202)
   || (c =? 8232) || (c =? 8233) || (c =? 8239) || (c =? 8287)
   || (c =? 12288))%N.

Fixpoint lstrip (s : text) : text :=
  match s with
  | [] => []
  | c :: rest => if Py_UNICODE_ISSPACE c then lstrip rest else s
  end.

Definition rstrip (s : text) : text := reverse (lstrip (reverse s)).

(** [s.strip()] *)
Definition strip (s : text) : text := rstrip (lstrip s).

(** Truth value of a [str]: non-empty. *)
Definition truthy (s : text) : bool :=
  match s with
  | [] => false
  | _ :: _ => true
  end.

Fixpoint zeros (n : nat) : string :=
  match n with
  | 0 => ""
  | S n' => "0" +:+ zeros n'
  end.

(** A number printed with [%0<width>d]. *)
Definition zero_padded (width n : nat) : string :=
  let digits := pretty n in
  zeros (width - String.length digits) +:+ digits.

(** [d.strftime("%Y-%m-%d %H:%M:%S")] *)
Definition strftime (d : datetime) : string :=
  zero_padded 4 (year d) +:+ "-" +:+ zero_padded 2 (month d) +:+ "-"
  +:+ zero_padded 2 (day d) +:+ " " +:+ zero_padded 2 (hour d) +:+ ":"
  +:+ zero_padded 2 (minute d) +:+ ":" +:+ zero_padded 2 (second d).

(** The f-string of [create_initial_message]. *)
Definition context_text (now btree_h btree_c : string) : string :=
  NL +:+ "Current time: " +:+ now +:+ NL +:+ NL
  +:+ "Source to Analyze:" +:+ NL +:+ NL
  +:+ "btree.h:" +:+ NL +:+ "```c" +:+ NL +:+ btree_h +:+ NL +:+ "```"
  +:+ NL +:+ NL
  +:+ "btree.c:" +:+ NL +:+ "```c" +:+ NL +:+ btree_c +:+ NL +:+ "```".

(** [dict(results)]: a later pair overrides an earlier one with its key. *)
Definition dict (results : list (string * string)) : gmap string string :=
  foldl (λ m kv, <[kv.1 := kv.2]> m) ∅ results.

(** Stable insertion sort by time: simultaneous completions keep the order
    in which they were started. *)
Fixpoint insert_by_time {B} (x : time * B) (l : list (time * B))
  : list (time * B) :=
  match l with
  | [] => [x]
  | y :: rest =>
      if (x.1 <=? y.1)%nat then x :: y :: rest else y :: insert_by_time x rest
  end.

Definition sort_by_time {B} (l : list (time * B)) : list (time * B) :=
  foldr insert_by_time [] l.

Section notebook.
Variable w : world.
Variable SQLITE_SOURCES : list (string * string).

(** *** The inference client *)

(** [client.messages.create(messages=..., model=..., **kwargs)], up to the
    point where the request is on the wire. *)
Definition client_messages_create (c : client)
    (messages : value) (model : string) (kwargs : value)
  : M (pending message) :=
  r ← build_request messages model kwargs;
  t ← time_time;
  emit (CreateSent t r);;
  mret (messages_create w r t).

(** [client.messages.stream(messages=..., model=..., **kwargs)] entered
    with [async with]. *)
Definition client_messages_stream (c : client)
    (messages : value) (model : string) (kwargs : value)
  : M stream_reply :=
  r ← build_request messages model kwargs;
  t ← time_time;
  emit (StreamSent t r);;
  mret (messages_stream w r t).

(** [sample_one_token]: send a single-token request to warm up the cache. *)
Definition sample_one_token (c : client) (messages : value)
  : coroutine message value :=
  Co (args ← copy_deepcopy DEFAULT_CLIENT_ARGS;
      setitem args "max_tokens" (VInt 1);;
      client_messages_create c messages MODEL args)
     (λ _, mret VNone).

Definition code_of (code : task_code) : coroutine message value :=
  match code with
  | sample_one_token_call c messages => sample_one_token c messages
  end.

(** *** The event loop *)

(** Run a task that has not run yet up to its [await]. *)
Definition start_task (i : nat) (code : task_code) : M unit :=
  r ← try_ (co_start (code_of code));
  t ← time_time;
  match r with
  | inr p =>
      modify (λ s, set_tasks
        (<[i := Waiting code (t + delay p) (outcome p)]> (tasks s)) s)
  | inl e =>
      modify (λ s, set_tasks (<[i := Finished t (inl e)]> (tasks s)) s);;
      emit (TaskDone t i (inl e))
  end.

Fixpoint start_from (i : nat) (ts : list task) : M unit :=
  match ts with
  | [] => mret tt
  | t :: rest =>
      match t with
      | Scheduled code => start_task i code
      | _ => mret tt
      end;;
      start_from (S i) rest
  end.

Definition start_scheduled : M unit :=
  s ← get; start_from 0 (tasks s).

(** Resume a task whose awaited operation is over: the rest of its code
    runs at that time, and what it returns or raises is kept in the
    task. *)
Definition wake_task (i : nat) : M unit :=
  s ← get;
  match tasks s !! i with
  | Some (Waiting code wake reply) =>
      modify (set_clock (clock s `max` wake));;
      r ← try_ (x ← settle reply; co_resume (code_of code) x);
      t ← time_time;
      modify (λ s, set_tasks (<[i := Finished t r]> (tasks s)) s);;
      emit (TaskDone t i r)
  | _ => mret tt
  end.

Fixpoint due_from (until : time) (i : nat) (ts : list task)
  : list (time * nat) :=
  match ts with
  | [] => []
  | t :: rest =>
      match t with
      | Waiting _ wake _ =>
          if (wake <=? until)%nat then (wake, i) :: due_from until (S i) rest
          else due_from until (S i) rest
      | _ => due_from until (S i) rest
      end
  end.

(** The running coroutine is suspended until [until]: the tasks that
    have not run yet run up to their [await], and the tasks whose
    operation ends by then are resumed in the order in which they end. *)
Definition suspend_until (until : time) : M unit :=
  start_scheduled;;
  s ← get;
  foldM (λ _ d, wake_task d.2) tt
    (sort_by_time (due_from until 0 (tasks s)));;
  s ← get;
  modify (set_clock (clock s `max` until)).

Definition suspend_for (d : time) : M unit :=
  t ← time_time; suspend_until (t + d).

(** [await asyncio.sleep(seconds)] *)
Definition asyncio_sleep (seconds : nat) : M unit :=
  suspend_for (seconds * hz w);;
  t ← time_time;
  emit (SleepDone t).

(** [asyncio.create_task(coro)] *)
Definition asyncio_create_task (code : task_code) : M nat := λ s,
  (Ok (length (tasks s)), set_tasks (tasks s ++ [Scheduled code]) s).

(** [await task]: a finished task yields its result at once; otherwise
    the awaiting coroutine is suspended until the task finishes. *)
Definition await_task (i : nat) : M value :=
  s ← get;
  match tasks s !! i with
  | Some (Finished _ r) => settle r
  | Some _ =>
      start_scheduled;;
      s ← get;
      match tasks s !! i with
      | Some (Waiting _ wake _) =>
          suspend_until wake;;
          s ← get;
          match tasks s !! i with
          | Some (Finished _ r) => settle r
          | _ => raise InvalidStateError
          end
      | Some (Finished _ r) => settle r
      | _ => raise InvalidStateError
      end
  | None => raise InvalidStateError
  end.

(** What [asyncio.gather] does with one of its coroutines: it is run up
    to its [await]; what is left of it is resumed when its operation
    ends. *)
Definition gather_start {X A} (c : coroutine X A) : M (time * M A) :=
  r ← try_ (co_start c);
  match r with
  | inr p => mret (delay p, (x ← settle (outcome p); co_resume c x))
  | inl e => mret (0, raise e)
  end.

Definition gather_resume {A} (t0 : time) (table : list (option A))
    (completion : time * (nat * M A)) : M (list (option A)) :=
  let '(d, (i, resume)) := completion in
  suspend_until (t0 + d);;
  a ← resume;
  mret (<[i := Some a]> table).

(** [await asyncio.gather] over the coroutines: every coroutine is
    started, they are resumed in the order in which their operations end,
    the first exception propagates, and the results come in argument
    order. *)
Definition gather {X A} (coros : list (coroutine X A)) : M (list A) :=
  t0 ← time_time;
  started ← mapM gather_start coros;
  results ← foldM (gather_resume t0)
    (replicate (length coros) None)
    (sort_by_time (imap (λ i start, (start.1, (i, start.2))) started));
  mret (omap id results).

(** *** Helper functions *)

(** [response.raise_for_status()] of httpx: any status outside 2xx
    raises. *)
Definition is_success (response : http_response) : bool :=
  ((200 <=? status_code response) && (status_code response <=? 299))%nat.

Definition raise_for_status (url : string) (response : http_response)
  : M unit :=
  if is_success response then mret tt
  else raise (HTTPStatusError (status_code response) url).

(** [client.get(url, follow_redirects=True)] on the
    [httpx.AsyncClient(timeout=30.0)]; the world answers with the
    response after redirections, or with the transport or timeout
    error. *)
Definition client_get (url : string) : M (pending http_response) :=
  t ← time_time;
  emit (HttpGet t url);;
  mret (http_get w url t).

Definition download_file (filename url : string)
  : coroutine http_response (string * string) :=
  Co (client_get url)
     (λ response,
        raise_for_status url response;;
        print [Lit ("Successfully downloaded " +:+ filename)];;
        mret (filename, body response)).

Definition get_sqlite_sources : M (gmap string string) :=
  print [Lit "Downloading SQLite source files..."];;
  start_time ← time_time;
  let tasks := (λ item, download_file item.1 item.2) <$> SQLITE_SOURCES in
  results ← gather tasks;
  let source_files := dict results in
  now ← time_time;
  let duration := now - start_time in
  print [Lit ("Downloaded " +:+ pretty (size source_files) +:+ " files in ");
         Fixed2 duration; Lit " seconds"];;
  mret source_files.

(** [sources[k]] on the dict returned by [get_sqlite_sources]. *)
Definition sources_getitem (sources : gmap string string) (k : string)
  : M string :=
  match sources !! k with
  | Some v => mret v
  | None => raise (KeyError k)
  end.

(** [datetime.datetime.now()] *)
Definition datetime_now : M datetime := λ s,
  (Ok (wall_clock w (clock s)), s).

Definition create_initial_message : M value :=
  sources ← get_sqlite_sources;
  now ← datetime_now;
  btree_h ← sources_getitem sources "btree.h";
  btree_c ← sources_getitem sources "btree.c";
  cache_control ← new_dict [("type", VStr "ephemeral")];
  block ← new_dict
    [("type", VStr "text");
     ("text", VStr (context_text (strftime now) btree_h btree_c));
     ("cache_control", cache_control)];
  content ← new_list [block];
  new_dict [("role", VStr "user"); ("content", content)].

(** The value [getattr(usage, name, '---')] prints as. *)
Definition str_attribute (a : attribute) : string :=
  match a with
  | Missing => "---"
  | Attr None => "None"
  | Attr (Some n) => pretty n
  end.

Definition print_query_statistics (response : message) (query_type : string)
  : M unit :=
  print [Lit (NL +:+ query_type +:+ " query statistics:")];;
  print [Lit (TAB +:+ "Input tokens: "
              +:+ pretty (input_tokens (msg_usage response)))];;
  print [Lit (TAB +:+ "Output tokens: "
              +:+ pretty (output_tokens (msg_usage response)))];;
  print [Lit (TAB +:+ "Cache read input tokens: "
              +:+ str_attribute
                    (cache_read_input_tokens (msg_usage response)))];;
  print [Lit (TAB +:+ "Cache creation input tokens: "
              +:+ str_attribute
                    (cache_creation_input_tokens (msg_usage response)))].

(** *** The measured request *)

(** The loop [async for text in stream.text_stream] of both
    demonstrations, which differ in the label they print; it returns the
    time to the first token and what is left of the stream when it
    breaks. *)
Fixpoint text_stream_loop (label : string) (start_time : time)
    (first_token_time : option time) (stream : list (time * text))
  : M (option time * list (time * text)) :=
  match stream with
  | [] => mret (first_token_time, [])
  | (d, text) :: rest =>
      suspend_for d;;
      if bool_decide (first_token_time = None) && truthy (strip text) then
        now ← time_time;
        let first_token_time := now - start_time in
        print [Lit (NL +:+ label +:+ " Time to first token: ");
               Fixed2 first_token_time; Lit " seconds"];;
        mret (Some first_token_time, rest)
      else text_stream_loop label start_time first_token_time rest
  end.

(** [await stream.get_final_message()]: the rest of the stream is
    consumed, then the stream ends with the final message or an error. *)
Definition get_final_message (stream : stream_reply)
    (rest : list (time * text)) : M message :=
  suspend_for (sum_list (fst <$> rest) + closing stream);;
  settle (final stream).

(** *** Example 1: standard prompt caching *)

(** The question both demonstrations ask. *)
Definition BtShared_question : string :=
  "What is the purpose of the BtShared structure?".

(** The demonstration once the context message exists. *)
Definition standard_with_context (client : client)
    (initial_message : value) : M (option time * time) :=
  print [Lit "User is typing their question..."];;
  asyncio_sleep 3;;
  let user_question := BtShared_question in
  print [Lit ("User submitted: " +:+ user_question)];;
  full_message ← copy_deepcopy initial_message;
  content ← getitem full_message "content";
  question ← new_dict
    [("type", VStr "text");
     ("text", VStr ("Answer the user's question: " +:+ user_question))];
  append content question;;
  print [Lit (NL +:+ "Sending request to API...")];;
  start_time ← time_time;
  let first_token_time := None in
  messages ← new_list [full_message];
  stream ← client_messages_stream client messages MODEL DEFAULT_CLIENT_ARGS;
  '(first_token_time, rest) ←
    text_stream_loop "🕐" start_time first_token_time (chunks stream);
  response ← get_final_message stream rest;
  now ← time_time;
  let total_time := now - start_time in
  print [Lit "Total response time: "; Fixed2 total_time; Lit " seconds"];;
  print_query_statistics response "Standard Caching";;
  mret (first_token_time, total_time).

Definition standard_prompt_caching_demo : M (option time * time) :=
  let client := AsyncAnthropic in
  initial_message ← create_initial_message;
  standard_with_context client initial_message.

(** *** Example 2: speculative prompt caching *)

(** The demonstration once the context message exists. *)
Definition speculative_with_context (client : client)
    (initial_message : value) : M (option time * time) :=
  print [Lit "User is typing their question..."];;
  print [Lit "🔥 Starting cache warming in background..."];;
  messages ← new_list [initial_message];
  cache_task ← asyncio_create_task (sample_one_token_call client messages);
  asyncio_sleep 3;;
  let user_question := BtShared_question in
  print [Lit ("User submitted: " +:+ user_question)];;
  await_task cache_task;;
  print [Lit "✅ Cache warming completed!"];;
  cached_message ← copy_deepcopy initial_message;
  content ← getitem cached_message "content";
  question ← new_dict
    [("type", VStr "text");
     ("text", VStr ("Answer the user's question: " +:+ user_question))];
  append content question;;
  print [Lit (NL +:+ "Sending request to API (with warm cache)...")];;
  start_time ← time_time;
  let first_token_time := None in
  messages ← new_list [cached_message];
  stream ← client_messages_stream client messages MODEL DEFAULT_CLIENT_ARGS;
  '(first_token_time, rest) ←
    text_stream_loop "🚀" start_time first_token_time (chunks stream);
  response ← get_final_message stream rest;
  now ← time_time;
  let total_time := now - start_time in
  print [Lit "Total response time: "; Fixed2 total_time; Lit " seconds"];;
  print_query_statistics response "Speculative Caching";;
  mret (first_token_time, total_time).

Definition speculative_prompt_caching_demo : M (option time * time) :=
  let client := AsyncAnthropic in
  initial_message ← create_initial_message;
  speculative_with_context client initial_message.
End notebook.

(** ** The comparison cell

    The last cell of the notebook prints both pairs of times and the two
    improvements.  It is top-level code that prints and may raise, with
    exceptions and numbers of its own. *)

(** The exceptions of the cell: a format specification applied to [None],
    and a division by zero. *)
Inductive cell_exn :=
| cell_TypeError
| cell_ZeroDivisionError.

(** The numbers the cell prints; their digits are not interpreted. *)
Inductive quantity :=
| Seconds (t : time)
| Faster (standard speculative : time)
| Improvement (standard speculative : time).

(** A piece of a line: text, or a number printed with [.<digits>f]. *)
Inductive cell_fragment :=
| Text (s : string)
| Fixed (digits : nat) (q : quantity).

Definition cell_line := list cell_fragment.

(** Top-level code that prints and may raise: what it has printed, and how
    it ends. *)
Definition cell (A : Type) : Type := list cell_line * (cell_exn + A).

#[export] Instance cell_ret : MRet cell := λ A a, ([], inr a).
#[export] Instance cell_bind : MBind cell := λ A B f m,
  match m with
  | (out, inl e) => (out, inl e)
  | (out, inr a) => let '(out', r) := f a in (out ++ out', r)
  end.

Definition cell_print (l : cell_line) : cell unit := ([l], inr tt).
Definition cell_raise {A} (e : cell_exn) : cell A := ([], inl e).

(** [s * n] on a string. *)
Fixpoint times (s : string) (n : nat) : string :=
  match n with
  | 0 => ""
  | S n' => s +:+ times s n'
  end.

(** [f"{x:.2f}"] where [x] is a time or [None]. *)
Definition format_2f (x : option time) : cell cell_fragment :=
  match x with
  | Some t => mret (Fixed 2 (Seconds t))
  | None => cell_raise cell_TypeError
  end.

(** [(standard - speculative) / standard * 100] *)
Definition improvement (standard speculative : time) : cell quantity :=
  if (standard =? 0)%nat then cell_raise cell_ZeroDivisionError
  else mret (Improvement standard speculative).

(** The cell, given what the two demonstrations returned. *)
Definition comparison_cell (standard_ttft : option time)
    (standard_total : time) (speculative_ttft : option time)
    (speculative_total : time) : cell unit :=
  cell_print [Text (times "=" 60)];;
  cell_print [Text "PERFORMANCE COMPARISON"];;
  cell_print [Text (times "=" 60)];;
  cell_print [Text (NL +:+ "Standard Prompt Caching:")];;
  a ← format_2f standard_ttft;
  cell_print [Text "  Time to First Token: "; a; Text " seconds"];;
  cell_print [Text "  Total Response Time: "; Fixed 2 (Seconds standard_total);
              Text " seconds"];;
  cell_print [Text (NL +:+ "Speculative Prompt Caching:")];;
  b ← format_2f speculative_ttft;
  cell_print [Text "  Time to First Token: "; b; Text " seconds"];;
  cell_print [Text "  Total Response Time: ";
              Fixed 2 (Seconds speculative_total); Text " seconds"];;
  match standard_ttft, speculative_ttft with
  | Some standard, Some speculative =>
      ttft_improvement ← improvement standard speculative;
      total_improvement ← improvement standard_total speculative_total;
      cell_print [Text (NL +:+ "🎯 IMPROVEMENTS:")];;
      cell_print [Text "  TTFT Improvement: "; Fixed 1 ttft_improvement;
                  Text "% ("; Fixed 2 (Faster standard speculative);
                  Text "s faster)"];;
      cell_print [Text "  Total Time Improvement: "; Fixed 1 total_improvement;
                  Text "% (";
                  Fixed 2 (Faster standard_total speculative_total);
                  Text "s faster)"]
  | _, _ => cell_raise cell_TypeError
  end.

(** ** Notions used in the statements *)

(** A text made of whitespace only (possibly empty). *)
Definition blank (x : text) : Prop :=
  Forall (λ c, Py_UNICODE_ISSPACE c = true) x.

Definition finished (t : task) : Prop :=
  match t with
  | Finished _ _ => True
  | _ => False
  end.

(** No task is waiting to run or to be resumed. *)
Definition quiet (s : state) : Prop := Forall finished (tasks s).

(** A kernel in which the configuration cell has run and nothing else is
    alive: the heap holds the configuration and there is no task. *)
Definition fresh_kernel (s : state) : Prop :=
  objects s = module_heap ∧ tasks s = [].

(** The objects [create_initial_message] allocates in a fresh kernel, whose
    heap holds the two configuration dicts: the cache-control dict, the
    content block, the content list and the message. *)
Definition context_objects (now btree_h btree_c : string) : list object :=
  [ODict [("type", VStr "ephemeral")];
   ODict [("type", VStr "text");
          ("text", VStr (context_text now btree_h btree_c));
          ("cache_control", VRef 2)];
   OList [VRef 3];
   ODict [("role", VStr "user"); ("content", VRef 4)]].

(** The state in which a demonstration finds itself once its context
    message exists. *)
Definition context_state (t : time) (now btree_h btree_c : string)
    (out : list line) (tr : list event) : state :=
  {| clock := t;
     objects := module_heap ++ context_objects now btree_h btree_c;
     tasks := []; stdout := out; trace := tr |}.

(** *** What goes on the wire *)

Definition block_json (now btree_h btree_c : string) : json :=
  JObject [("type", JStr "text");
           ("text", JStr (context_text now btree_h btree_c));
           ("cache_control", JObject [("type", JStr "ephemeral")])].

Definition question_json : json :=
  JObject [("type", JStr "text");
           ("text", JStr ("Answer the user's question: "
                          +:+ BtShared_question))].

Definition message_json (content : list json) : json :=
  JObject [("role", JStr "user"); ("content", JArray content)].

Definition client_args_json (max_tokens : Z) : list (string * json) :=
  [("system", JStr system_instruction);
   ("max_tokens", JInt max_tokens);
   ("temperature", JInt 0);
   ("extra_headers",
    JObject [("anthropic-beta", JStr "prompt-caching-2024-07-31")])].

(** The request of the probe. *)
Definition probe_request (now btree_h btree_c : string) : request :=
  {| req_messages := JArray [message_json [block_json now btree_h btree_c]];
     req_model := MODEL;
     req_kwargs := client_args_json 1 |}.

(** The request that carries the question. *)
Definition final_request (now btree_h btree_c : string) : request :=
  {| req_messages :=
       JArray [message_json [block_json now btree_h btree_c; question_json]];
     req_model := MODEL;
     req_kwargs := client_args_json 4096 |}.

(** What a task that runs [sample_one_token] ends with. *)
Definition probe_result (reply : exn + message) : exn + value :=
  match reply with
  | inl e => inl e
  | inr _ => inr VNone
  end.

(** The time from the start of a stream to its first text that is not
    blank, with the texts that follow it. *)
Fixpoint first_token (elapsed : time) (stream : list (time * text))
  : option (time * list (time * text)) :=
  match stream with
  | [] => None
  | (d, x) :: rest =>
      if truthy (strip x) then Some (elapsed + d, rest)
      else first_token (elapsed + d) rest
  end.

(** *** Downloads

    What one [download_file] contributes to [get_sqlite_sources] when the
    requests are sent at [t0]: the delay of the reply, and the pair the
    coroutine returns or the exception it raises. *)

Definition download_delay (w : world) (t0 : time) (item : string * string)
  : time :=
  delay (http_get w item.2 t0).

Definition download_outcome (w : world) (t0 : time) (item : string * string)
  : exn + (string * string) :=
  match outcome (http_get w item.2 t0) with
  | inl e => inl e
  | inr response =>
      if is_success response then inr (item.1, body response)
      else inl (HTTPStatusError (status_code response) item.2)
  end.

Definition fetched (w : world) (t0 : time) (item : string * string) : Prop :=
  ∃ a, download_outcome w t0 item = inr a.

(** The pair of a download, the content being empty where it failed. *)
Definition downloaded (w : world) (t0 : time) (item : string * string)
  : string * string :=
  match download_outcome w t0 item with
  | inr a => a
  | inl _ => (item.1, "")
  end.

Definition earlier {B} (x y : time * B) : Prop := (x.1 ≤ y.1)%nat.

(** The rest of a download once its reply is there. *)
Definition resume_download (w : world) (t0 : time) (item : string * string)
  : M (string * string) :=
  x ← settle (outcome (http_get w item.2 t0));
  co_resume (download_file w item.1 item.2) x.

(** The completions of the downloads, in the order [gather] sees them. *)
Definition completions (w : world) (t0 : time)
    (sources : list (string * string))
  : list (time * (nat * (string * string))) :=
  sort_by_time (imap (λ i item, (download_delay w t0 item, (i, item))) sources).

(** The results [gather] collects from the completions, state left out. *)
Fixpoint collect (w : world) (t0 : time)
    (table : list (option (string * string)))
    (l : list (time * (nat * (string * string))))
  : exn + list (option (string * string)) :=
  match l with
  | [] => inr table
  | (_, (i, item)) :: rest =>
      match download_outcome w t0 item with
      | inl e => inl e
      | inr a => collect w t0 (<[i := Some a]> table) rest
      end
  end.

Definition fill (w : world) (t0 : time)
    (table : list (option (string * string)))
    (l : list (time * (nat * (string * string))))
  : list (option (string * string)) :=
  foldl (λ t c, <[c.2.1 := Some (downloaded w t0 c.2.2)]> t) table l.

(** *** Events *)

Definition is_stream_sent (e : event) : bool :=
  match e with
  | StreamSent _ _ => true
  | _ => false
  end.

(** *** Worlds *)

(** The world [w] with the usage of every reply of the inference service
    replaced by what [f] says. *)
Definition map_usage (f : usage → usage) (r : exn + message)
  : exn + message :=
  match r with
  | inl e => inl e
  | inr m => inr {| msg_usage := f (msg_usage m) |}
  end.

Definition with_usage (f : request → time → usage → usage) (w : world)
  : world :=
  {| hz := hz w;
     wall_clock := wall_clock w;
     http_get := http_get w;
     messages_create := λ r t,
       let p := messages_create w r t in
       {| delay := delay p; outcome := map_usage (f r t) (outcome p) |};
     messages_stream := λ r t,
       let st := messages_stream w r t in
       {| chunks := chunks st; closing := closing st;
          final := map_usage (f r t) (final st) |} |}.

(** A world for examples: ten ticks to the second, a wall clock that
    shows the microseconds [us] plus the ticks of a fixed second, a web
    server that answers every request after one tick with the URL as the
    page, and an inference service that answers the probe with [probe] and
    every streamed request with [answer]. *)
Definition noon (us : nat) : datetime :=
  {| year := 2025; month := 1; day := 15;
     hour := 12; minute := 0; second := 0; microsecond := us |}.

Definition page (content : string) : pending http_response :=
  {| delay := 1;
     outcome := inr {| status_code := 200; body := content |} |}.

Definition cache_hit : usage :=
  {| input_tokens := 22; output_tokens := 330;
     cache_read_input_tokens := Attr (Some 151629%Z);
     cache_creation_input_tokens := Attr (Some 0%Z) |}.

Definition answer : stream_reply :=
  {| chunks := [(2, []); (1, [32; 10]%N); (4, [32; 66; 116]%N);
                (1, [83; 104]%N)];
     closing := 5;
     final := inr {| msg_usage := cache_hit |} |}.

Definition served (us : nat) (probe : pending message) : world :=
  {| hz := 10;
     wall_clock := λ t, noon (us + t);
     http_get := λ url _, page url;
     messages_create := λ _ _, probe;
     messages_stream := λ _ _, answer |}.

Definition probe_ok : pending message :=
  {| delay := 45; outcome := inr {| msg_usage := cache_hit |} |}.


(** *** The loader in a state where no task is alive *)

(** The state in which the completions leave the loader. *)
Fixpoint collect_state (w : world) (t0 : time)
    (l : list (time * (nat * (string * string)))) (s : state) : state :=
  match l with
  | [] => s
  | (d, (_, item)) :: rest =>
      let s1 := set_clock (clock s `max` (t0 + d)) s in
      match download_outcome w t0 item with
      | inl _ => s1
      | inr _ =>
          collect_state w t0 rest
            (set_stdout
               (stdout s1 ++ [[Lit ("Successfully downloaded " +:+ item.1)]])
               s1)
      end
  end.

(** What [get_sqlite_sources] returns or raises when the requests are sent
    at [t0]. *)
Definition loader_result (w : world) (t0 : time)
    (sources : list (string * string)) : result (gmap string string) :=
  match collect w t0 (replicate (length sources) None)
          (completions w t0 sources) with
  | inl e => Raise e
  | inr table => Ok (dict (omap id table))
  end.

(** The state in which [get_sqlite_sources] ends. *)
Definition loader_state (w : world) (sources : list (string * string))
    (s : state) : state :=
  let t0 := clock s in
  let s1 :=
    collect_state w t0 (completions w t0 sources)
      (set_trace (trace s ++ ((λ item, HttpGet t0 item.2) <$> sources))
         (set_stdout (stdout s ++ [[Lit "Downloading SQLite source files..."]])
            s)) in
  match loader_result w t0 sources with
  | Raise _ => s1
  | Ok source_files =>
      set_stdout
        (stdout s1 ++
         [[Lit ("Downloaded " +:+ pretty (size source_files) +:+ " files in ");
           Fixed2 (clock s1 - t0); Lit " seconds"]]) s1
  end.

(** *** Runs and requests *)

(** Two runs take the same course: same result, same time, same events and
    same tasks. *)
Definition same_course (run run' : result (option time * time) * state)
  : Prop :=
  run'.1 = run.1 ∧ clock run'.2 = clock run.2 ∧
  trace run'.2 = trace run.2 ∧ tasks run'.2 = tasks run.2.



(** *** More notions *)

(* definitions *)
(** The line a download prints when it has succeeded. *)
Definition download_line (c : time * (nat * (string * string))) : line :=
  [Lit ("Successfully downloaded " +:+ c.2.2.1)].



Definition stream_fails : stream_reply :=
  {| chunks := [(2, [72; 105]%N)]; closing := 1;
     final := inl (APIError "overloaded_error") |}.

Definition flaky_service : world :=
  {| hz := 10;
     wall_clock := λ t, noon t;
     http_get := λ url _, page url;
     messages_create := λ _ _, probe_ok;
     messages_stream := λ _ _, stream_fails |}.

(** An event carries the model and the default arguments, the probe with
    [max_tokens] 1. *)
Definition uses_defaults (ev : event) : Prop :=
  match ev with
  | CreateSent _ req =>
      req_model req = MODEL ∧ req_kwargs req = client_args_json 1
  | StreamSent _ req =>
      req_model req = MODEL ∧ req_kwargs req = client_args_json 4096
  | _ => True
  end.

Definition silence : stream_reply :=
  {| chunks := [(2, []); (3, [32; 10]%N)]; closing := 1;
     final := inr {| msg_usage := cache_hit |} |}.

Definition silent_service : world :=
  {| hz := 10;
     wall_clock := λ t, noon t;
     http_get := λ url _, page url;
     messages_create := λ _ _, probe_ok;
     messages_stream := λ _ _, silence |}.

Definition ticking : world :=
  {| hz := 1;
     wall_clock := λ t,
       {| year := 2025; month := 1; day := 15; hour := 12; minute := 0;
          second := t `mod` 60; microsecond := 0 |};
     http_get := λ url _, page url;
     messages_create := λ _ _, probe_ok;
     messages_stream := λ _ _, answer |}.

(** * Properties *)

#[local] Arguments mbind _ _ _ _ _ _ /.
#[local] Arguments M_bind _ _ _ _ !_ /.
#[local] Arguments mret _ _ _ _ /.
#[local] Arguments M_ret _ _ _ /.
#[local] Arguments context_text : simpl never.
#[local] Arguments strftime : simpl never.
#[local] Arguments dict : simpl never.
#[local] Arguments pretty : simpl never.
#[local] Arguments String.append : simpl never.
#[local] Arguments Py_UNICODE_ISSPACE : simpl never.
#[local] Arguments suspend_until : simpl never.
#[local] Arguments suspend_for : simpl never.
#[local] Arguments gather : simpl never.
#[local] Arguments is_success : simpl never.
#[local] Arguments print _ _ /.
#[local] Arguments emit _ _ /.
#[local] Arguments modify _ _ /.
#[local] Arguments get _ /.
#[local] Arguments raise _ _ _ /.
#[local] Arguments time_time _ /.
#[local] Arguments alloc _ _ /.
#[local] Arguments new_dict _ _ /.
#[local] Arguments new_list _ _ /.
#[local] Arguments datetime_now _ _ /.
#[local] Arguments asyncio_create_task _ _ /.
#[local] Arguments set_clock _ !_ /.
#[local] Arguments set_objects _ !_ /.
#[local] Arguments set_tasks _ !_ /.
#[local] Arguments set_stdout _ !_ /.
#[local] Arguments set_trace _ !_ /.

(** Evaluation of a run, keeping the arithmetic on times folded. *)
Ltac run := cbn -[Nat.add Nat.sub Nat.mul Nat.max Nat.leb].
Tactic Notation "run" "in" hyp(H) := cbn -[Nat.add Nat.sub Nat.mul Nat.max Nat.leb] in H.

(** ** Whitespace *)

Lemma lstrip_nil_iff (x : text) : lstrip x = [] ↔ blank x.
Proof.
  unfold blank. induction x as [|c x IH]; simpl.
  - split; [constructor | done].
  - destruct (Py_UNICODE_ISSPACE c) eqn:Hc.
    + rewrite IH. split; [by constructor | by inversion 1].
    + split; [done | intros [H2 _]%Forall_cons; rewrite Hc in H2; done].
Qed.

Lemma blank_reverse (x : text) : blank (reverse x) ↔ blank x.
Proof. unfold blank. by rewrite !Forall_forall; setoid_rewrite elem_of_reverse. Qed.

Lemma lstrip_suffix (x : text) : lstrip x `suffix_of` x.
Proof.
  induction x as [|c x IH]; simpl; [done|].
  destruct (Py_UNICODE_ISSPACE c); [by apply suffix_cons_r | done].
Qed.

Lemma lstrip_head (x : text) c r :
  lstrip x = c :: r → Py_UNICODE_ISSPACE c = false.
Proof.
  induction x as [|c' x IH]; simpl; [done|].
  destruct (Py_UNICODE_ISSPACE c') eqn:Hc; [done|].
  by intros [= -> _].
Qed.

(** [x.strip()] is the empty string exactly when [x] is blank. *)
Lemma strip_truthy (x : text) : truthy (strip x) = false ↔ blank x.
Proof.
  unfold strip, rstrip. split.
  - intros H. destruct (lstrip x) as [|c r] eqn:Hl; [by apply lstrip_nil_iff|].
    exfalso. destruct (lstrip (reverse (c :: r))) as [|c' r'] eqn:Hr.
    + apply lstrip_nil_iff in Hr. apply (proj1 (blank_reverse _)) in Hr.
      unfold blank in Hr.
      apply lstrip_head in Hl. apply Forall_cons in Hr as [H2 _].
      rewrite Hl in H2; done.
    + rewrite reverse_cons in H. by destruct (reverse r').
  - intros H. apply lstrip_nil_iff in H as ->. done.
Qed.

Lemma strip_truthy_true (x : text) : truthy (strip x) = true ↔ ¬ blank x.
Proof. rewrite <-strip_truthy. by destruct (truthy (strip x)). Qed.

(** ** The event loop when no task is alive *)

Section quiet.
Variable w : world.

Lemma start_from_quiet i ts s :
  Forall finished ts → start_from w i ts s = (Ok tt, s).
Proof.
  intros H. revert i. induction H as [|t ts Ht _ IH]; intros i; [done|].
  destruct t; try done. destruct s. run. apply IH.
Qed.

Lemma due_from_quiet until i ts :
  Forall finished ts → due_from until i ts = [].
Proof.
  intros H. revert i. induction H as [|t ts Ht _ IH]; intros i; [done|].
  destruct t; try done. cbn. apply IH.
Qed.

Lemma suspend_until_quiet until s :
  quiet s →
  suspend_until w until s = (Ok tt, set_clock (clock s `max` until) s).
Proof.
  destruct s as [c h ts out tr]. unfold quiet. intros H; simpl in H.
  unfold suspend_until, start_scheduled. run.
  rewrite start_from_quiet by done. run.
  rewrite due_from_quiet by done. done.
Qed.

Lemma suspend_for_quiet d s :
  quiet s → suspend_for w d s = (Ok tt, set_clock (clock s + d) s).
Proof.
  intros H. unfold suspend_for.
  transitivity (suspend_until w (clock s + d) s); [by destruct s|].
  rewrite suspend_until_quiet by done. do 2 f_equal. lia.
Qed.

Lemma first_token_shift a b stream :
  first_token (a + b) stream =
  (λ p, (a + p.1, p.2)) <$> first_token b stream.
Proof.
  revert a b. induction stream as [|[d x] rest IH]; intros a b; [done|].
  cbn. destruct (truthy (strip x)); cbn.
  - do 2 f_equal. lia.
  - rewrite <-IH. f_equal. lia.
Qed.

(** The loop over the stream, in closed form. *)
Lemma text_stream_loop_run label start_time stream s :
  quiet s →
  text_stream_loop w label start_time None stream s =
  match first_token 0 stream with
  | Some (elapsed, rest) =>
      (Ok (Some (clock s + elapsed - start_time), rest),
       set_stdout
         (stdout s ++
          [[Lit (NL +:+ label +:+ " Time to first token: ");
            Fixed2 (clock s + elapsed - start_time); Lit " seconds"]])
         (set_clock (clock s + elapsed) s))
  | None =>
      (Ok (None, []), set_clock (clock s + sum_list (stream.*1)) s)
  end.
Proof.
  revert s. induction stream as [|[d x] rest IH]; intros s Hq.
  - destruct s; run. do 2 f_equal. lia.
  - cbn [text_stream_loop].
    transitivity (
      match suspend_for w d s with
      | (Ok _, s1) =>
          (if bool_decide (None = None :> option nat) && truthy (strip x)
           then
             now ← time_time;
             print [Lit (NL +:+ label +:+ " Time to first token: ");
                    Fixed2 (now - start_time); Lit " seconds"];;
             mret (Some (now - start_time), rest)
           else text_stream_loop w label start_time None rest) s1
      | (Raise e, s1) => (Raise e, s1)
      end); [by destruct s|].
    rewrite suspend_for_quiet by done. run.
    destruct (truthy (strip x)) eqn:Hx.
    + destruct s; run. done.
    + rewrite IH by (by destruct s).
      replace (first_token (0 + d) rest) with (first_token (d + 0) rest)
        by (f_equal; lia).
      rewrite first_token_shift.
      destruct (first_token 0 rest) as [[el rest']|];
        destruct s as [c h ts out tr]; run.
      * replace (c + d + el) with (c + (d + el)) by lia. done.
      * do 2 f_equal. lia.
Qed.
End quiet.

(** ** Symbolic execution *)

Lemma bind_inv {A B} (m : M A) (f : A → M B) s y :
  (m ≫= f) s = y →
  ∃ x, m s = x ∧
       match x with
       | (Ok a, s1) => f a s1
       | (Raise e, s1) => (Raise e, s1)
       end = y.
Proof.
  intros <-. eexists; split; [done|]. unfold mbind, M_bind.
  by destruct (m s) as [[] ?].
Qed.

Lemma try_inv {A} (m : M A) s y :
  try_ m s = y →
  ∃ x, m s = x ∧
       match x with
       | (Ok a, s1) => (Ok (inr a), s1)
       | (Raise e, s1) => (Ok (inl e), s1)
       end = y.
Proof.
  intros <-. eexists; split; [done|]. unfold try_. by destruct (m s) as [[] ?].
Qed.

Lemma dict_lookup_fst (k1 k2 v1 v2 : string) :
  k1 ≠ k2 → dict [(k1, v1); (k2, v2)] !! k1 = Some v1.
Proof. intros. unfold dict; simpl. by simplify_map_eq. Qed.

Lemma dict_lookup_snd (k1 k2 v1 v2 : string) :
  dict [(k1, v1); (k2, v2)] !! k2 = Some v2.
Proof. unfold dict; simpl. by simplify_map_eq. Qed.

Ltac head_of t :=
  lazymatch t with
  | ?f _ => head_of f
  | _ => t
  end.

(** Evaluation of the data in a hypothesis; the monadic structure is left
    to [exec]. *)
Ltac data_in H :=
  cbn -[mbind M_bind try_ Nat.add Nat.sub Nat.mul Nat.max Nat.leb] in H.

(** The console output and the trace only grow: once an operation has
    run, what it left there is put aside under a name. *)
Ltac put_aside H :=
  try match type of H with
      | (_, {| clock := _; objects := _; tasks := _;
               stdout := ?o ++ ?l; trace := _ |}) = _ =>
          let o' := fresh "out" in remember (o ++ l) as o'
      end;
  try match type of H with
      | (_, {| clock := _; objects := _; tasks := _;
               stdout := _; trace := ?t ++ ?l |}) = _ =>
          let t' := fresh "tr" in remember (t ++ l) as t'
      end.

Ltac quiet_now := unfold quiet; cbn [tasks]; repeat constructor.

(** The operations that are run by evaluation; the other functions are
    unfolded. *)
Ltac is_operation h :=
  lazymatch h with
  | @print => idtac
  | @emit => idtac
  | @time_time => idtac
  | @raise => idtac
  | @modify => idtac
  | @get => idtac
  | @mret => idtac
  | @M_ret => idtac
  | @settle => idtac
  | @alloc => idtac
  | @new_dict => idtac
  | @new_list => idtac
  | @copy_deepcopy => idtac
  | @setitem => idtac
  | @getitem => idtac
  | @append => idtac
  | @to_json => idtac
  | @datetime_now => idtac
  | @asyncio_create_task => idtac
  | @foldM => idtac
  | @mapM => idtac
  | @start_from => idtac
  | @co_start => idtac
  | @co_resume => idtac
  | _ => tryif is_const h then fail else idtac
  end.

Lemma run_eq {A} (m m' : M A) s y : m = m' → m s = y → m' s = y.
Proof. by intros <-. Qed.

(** Unfold the function that [H : f x1 .. xn s = y] calls, unless it is an
    operation.  The function is unfolded apart from the state, so that
    checking the step does not run it. *)
Ltac unfold_function H :=
  lazymatch type of H with
  | ?m ?s = ?y =>
      let h := head_of m in
      tryif is_operation h then fail else
        let m1 := eval unfold h in m in
        let m2 := eval lazy beta in m1 in
        apply (run_eq m m2 s y (eq_refl m2)) in H
  end.

(** [exec H], for [H : m s = y]: run [m] from the state [s] one operation
    at a time, with a case for every answer of the world. *)
Ltac exec H :=
  lazy beta iota zeta in H;
  lazymatch type of H with
  | @mbind _ _ _ _ ?f ?m ?s = _ =>
      let x := fresh "x" in
      let H1 := fresh "E" in
      apply bind_inv in H as (x & H1 & H);
      exec H1; exec H
  | try_ ?m ?s = _ =>
      let x := fresh "x" in
      let H1 := fresh "E" in
      apply try_inv in H as (x & H1 & H);
      exec H1; exec H
  | (_, _) = ?y => put_aside H; first [ is_var y; subst y | idtac ]
  | suspend_until _ _ _ = _ =>
      first [ rewrite suspend_until_quiet in H by quiet_now
            | unfold suspend_until in H ]; exec H
  | suspend_for _ _ _ = _ =>
      first [ rewrite suspend_for_quiet in H by quiet_now
            | unfold suspend_for in H ]; exec H
  | text_stream_loop _ _ _ None _ _ = _ =>
      rewrite text_stream_loop_run in H by quiet_now; exec H
  | _ =>
      tryif unfold_function H then exec H else
        let T := type of H in
        data_in H;
        lazymatch type of H with
        | context [if (?a <=? ?b)%nat then _ else _] =>
            destruct (Nat.leb_spec a b); exec H
        | context [is_success ?r] =>
            destruct (is_success r) eqn:?; exec H
        | context [dict [(?k1, _); (?k2, _)] !! ?k1] =>
            rewrite dict_lookup_fst in H by done; exec H
        | context [dict [(?k1, _); (?k2, _)] !! ?k2] =>
            rewrite dict_lookup_snd in H; exec H
        | context [http_get ?w ?u ?t] =>
            let d := fresh "d" in let e := fresh "e" in
            let st := fresh "st" in let b := fresh "b" in
            destruct (http_get w u t) as [d [e|[st b]]] eqn:?; exec H
        | context [messages_create ?w ?r ?t] =>
            let d := fresh "dp" in
            let e := fresh "ep" in let m := fresh "mp" in
            destruct (messages_create w r t) as [d [e|m]] eqn:?; exec H
        | context [messages_stream ?w ?r ?t] =>
            let c := fresh "chunks" in let d := fresh "closing" in
            let e := fresh "ef" in let m := fresh "mf" in
            destruct (messages_stream w r t) as [c d [e|m]] eqn:?; exec H
        | context [first_token 0 ?c] =>
            let el := fresh "el" in let rest := fresh "rest" in
            destruct (first_token 0 c) as [[el rest]|] eqn:?; exec H
        | ?T' =>
            tryif constr_eq T T' then fail "exec: stuck at" T else exec H
        end
  end.

(** ** The runs of the notebook's functions *)

Section runs.
Variable w : world.

(** Context construction in a fresh kernel, for the notebook's two
    resources. *)
Lemma create_initial_message_run s r s' :
  fresh_kernel s →
  create_initial_message w SQLITE_SOURCES_notebook s = (r, s') →
  let ph := http_get w btree_h_url (clock s) in
  let pc := http_get w btree_c_url (clock s) in
  tasks s' = [] ∧
  trace s' = trace s ++ [HttpGet (clock s) btree_h_url;
                         HttpGet (clock s) btree_c_url] ∧
  (∃ lines, stdout s' = stdout s ++ lines) ∧
  (clock s ≤ clock s')%nat ∧
  match r with
  | Ok initial_message =>
      initial_message = VRef 5 ∧
      ∃ rh rc,
        outcome ph = inr rh ∧ outcome pc = inr rc ∧
        is_success rh = true ∧ is_success rc = true ∧
        objects s' =
          module_heap ++
          context_objects (strftime (wall_clock w (clock s')))
            (body rh) (body rc)
  | Raise e => objects s' = module_heap
  end.
Proof.
  destruct s as [c h ts out tr]. intros [Hh Ht] H; simpl in *; subst.
  exec H.
  all: simplify_eq; cbn -[Nat.add Nat.max].
  all: rewrite <-?app_assoc.
  all: split_and?; eauto; try lia.
  all: eexists _, _; split_and!; eauto.
Qed.

(** Closes a goal that equates two results, event lists or times which
    differ in how their times are written. *)
Ltac same := repeat first [ reflexivity | lia | progress f_equal ].

Lemma first_token_sum a stream el rest :
  first_token a stream = Some (el, rest) →
  a + sum_list (stream.*1) = el + sum_list (rest.*1).
Proof.
  revert a. induction stream as [|[d x] stream IH]; intros a; [done|].
  cbn. destruct (truthy (strip x)).
  - intros [= <- <-]. lia.
  - intros H%IH. lia.
Qed.

Lemma to_json_serialize v s j :
  serialize (length (objects s)) (objects s) v = Some j →
  to_json v s = (Ok j, s).
Proof. unfold to_json. by intros ->. Qed.

(** The speculative demonstration from the point where its context
    message exists: the probe is sent at once, the request that carries
    the question is sent when both the probe and the typing are over,
    and a failed probe ends the run. *)
Lemma speculative_with_context_run t1 now bh bc out tr r s' :
  speculative_with_context w AsyncAnthropic (VRef 5)
    (context_state t1 now bh bc out tr) = (r, s') →
  let p := messages_create w (probe_request now bh bc) t1 in
  let t_probe := t1 + delay p in
  let t_sleep := t1 + 3 * hz w in
  let t_send := t_probe `max` t_sleep in
  let done := TaskDone t_probe 0 (probe_result (outcome p)) in
  let joined :=
    if decide (t_probe ≤ t_sleep)%nat
    then [done; SleepDone t_sleep] else [SleepDone t_sleep; done] in
  tasks s' = [Finished t_probe (probe_result (outcome p))] ∧
  (module_heap ++ context_objects now bh bc) `prefix_of` objects s' ∧
  to_json (VRef 5) s' = (Ok (message_json [block_json now bh bc]), s') ∧
  (∃ lines, stdout s' = out ++ lines) ∧
  match outcome p with
  | inl e =>
      r = Raise e ∧ clock s' = t_send ∧
      trace s' = tr ++ CreateSent t1 (probe_request now bh bc) :: joined
  | inr _ =>
      let st := messages_stream w (final_request now bh bc) t_send in
      let total := sum_list ((chunks st).*1) + closing st in
      trace s' =
        tr ++ CreateSent t1 (probe_request now bh bc) :: joined
           ++ [StreamSent t_send (final_request now bh bc)] ∧
      clock s' = t_send + total ∧
      r = match final st with
          | inl e => Raise e
          | inr _ => Ok (fst <$> first_token 0 (chunks st), total)
          end
  end.
Proof.
  unfold context_state, context_objects. intros H. exec H.
  all: try (exfalso; lia).
  all: injection H as <- <-.
  all: cbn [tasks objects stdout trace clock].
  all: (split; [|split; [by eexists|split; [by apply to_json_serialize|]]]).
  all: unfold probe_request, final_request, message_json, block_json,
         question_json, client_args_json.
  all: repeat match goal with
       | Hp : messages_create _ _ _ = _ |- _ => rewrite Hp; clear Hp
       end.
  all: cbn -[Nat.add Nat.sub Nat.mul Nat.max Nat.leb decide].
  all: repeat match goal with
       | Hs : messages_stream _ _ ?T = _
         |- context [messages_stream _ _ ?T'] =>
           replace T with T' in Hs by lia; rewrite Hs; clear Hs
       end.
  all: cbn -[Nat.add Nat.sub Nat.mul Nat.max Nat.leb decide].
  all: repeat match goal with
       | Hf : first_token 0 _ = _ |- _ =>
           try rewrite Hf; first [ apply first_token_sum in Hf | clear Hf ]
       end.
  all: cbn -[Nat.add Nat.sub Nat.mul Nat.max Nat.leb decide].
  all: try case_decide; try lia.
  all: subst; rewrite <-?app_assoc; cbn [app].
  all: split_and?; try by eexists.
  all: same.
Qed.

(** The standard demonstration from the point where its context message
    exists: the request is sent when the typing is over. *)
Lemma standard_with_context_run t1 now bh bc out tr r s' :
  standard_with_context w AsyncAnthropic (VRef 5)
    (context_state t1 now bh bc out tr) = (r, s') →
  let t_send := t1 + 3 * hz w in
  let st := messages_stream w (final_request now bh bc) t_send in
  let total := sum_list ((chunks st).*1) + closing st in
  tasks s' = [] ∧
  (module_heap ++ context_objects now bh bc) `prefix_of` objects s' ∧
  to_json (VRef 5) s' = (Ok (message_json [block_json now bh bc]), s') ∧
  (∃ lines, stdout s' = out ++ lines) ∧
  trace s' =
    tr ++ [SleepDone t_send; StreamSent t_send (final_request now bh bc)] ∧
  clock s' = t_send + total ∧
  r = match final st with
      | inl e => Raise e
      | inr _ => Ok (fst <$> first_token 0 (chunks st), total)
      end.
Proof.
  unfold context_state, context_objects. intros H. exec H.
  all: injection H as <- <-.
  all: cbn [tasks objects stdout trace clock].
  all: (split; [|split; [by eexists|split; [by apply to_json_serialize|]]]).
  all: unfold final_request, message_json, block_json, question_json,
         client_args_json.
  all: cbn -[Nat.add Nat.sub Nat.mul Nat.max Nat.leb].
  all: repeat match goal with
       | Hs : messages_stream _ _ ?T = _
         |- context [messages_stream _ _ ?T'] =>
           replace T with T' in Hs by lia; rewrite Hs; clear Hs
       end.
  all: cbn -[Nat.add Nat.sub Nat.mul Nat.max Nat.leb].
  all: repeat match goal with
       | Hf : first_token 0 _ = _ |- _ =>
           try rewrite Hf; first [ apply first_token_sum in Hf | clear Hf ]
       end.
  all: cbn -[Nat.add Nat.sub Nat.mul Nat.max Nat.leb].
  all: subst; rewrite <-?app_assoc; cbn [app].
  all: split_and?; try by eexists.
  all: same.
Qed.
End runs.


(** ** Completion order *)

Section sorting.
Context {B : Type}.
Implicit Types (x : time * B) (l : list (time * B)).

Lemma insert_by_time_perm x l : insert_by_time x l ≡ₚ x :: l.
Proof.
  induction l as [|y l IH]; cbn; [done|].
  destruct (x.1 <=? y.1)%nat; [done|]. rewrite IH. apply Permutation_swap.
Qed.

Lemma sort_by_time_perm l : sort_by_time l ≡ₚ l.
Proof.
  induction l as [|x l IH]; cbn; [done|].
  rewrite insert_by_time_perm. by f_equiv.
Qed.

Lemma insert_by_time_sorted x l :
  StronglySorted earlier l → StronglySorted earlier (insert_by_time x l).
Proof.
  induction 1 as [|y l Hl IH Hy]; cbn; [by repeat constructor|].
  destruct (Nat.leb_spec x.1 y.1).
  - constructor; [by constructor|]. constructor; [done|].
    eapply Forall_impl; [done|]. unfold earlier. intros; cbn in *. lia.
  - constructor; [done|]. rewrite insert_by_time_perm.
    constructor; [|done]. unfold earlier. lia.
Qed.

Lemma sort_by_time_sorted l : StronglySorted earlier (sort_by_time l).
Proof.
  induction l; cbn; [constructor|]. by apply insert_by_time_sorted.
Qed.

Lemma insert_by_time_fmap {C} (f : B → C) x l :
  insert_by_time (x.1, f x.2) (prod_map id f <$> l)
  = prod_map id f <$> insert_by_time x l.
Proof.
  destruct x as [t b]. induction l as [|[t' b'] l IH]; cbn in *; [done|].
  destruct (t <=? t')%nat; cbn; [done|]. by rewrite IH.
Qed.

Lemma sort_by_time_fmap {C} (f : B → C) l :
  sort_by_time (prod_map id f <$> l) = prod_map id f <$> sort_by_time l.
Proof.
  induction l as [|x l IH]; [done|].
  change (sort_by_time (prod_map id f <$> x :: l))
    with (insert_by_time (prod_map id f x)
            (sort_by_time (prod_map id f <$> l))).
  rewrite IH. apply (insert_by_time_fmap f x).
Qed.
End sorting.

(** ** The event loop never raises into the code that suspends *)

Lemma bind_run {A B} (m : M A) (f : A → M B) s a s1 :
  m s = (Ok a, s1) → (m ≫= f) s = f a s1.
Proof. unfold mbind, M_bind. by intros ->. Qed.

Lemma bind_raise {A B} (m : M A) (f : A → M B) s e s1 :
  m s = (Raise e, s1) → (m ≫= f) s = (Raise e, s1).
Proof. unfold mbind, M_bind. by intros ->. Qed.

Section loop.
Variable w : world.

Lemma try_total {A} (m : M A) s : ∃ r s', try_ m s = (Ok r, s').
Proof. unfold try_. destruct (m s) as [[a|e] s']; by eexists _, _. Qed.

Lemma start_task_total i code s : ∃ s', start_task w i code s = (Ok tt, s').
Proof.
  unfold start_task.
  destruct (try_total (co_start (code_of w code)) s) as ([e|p] & s1 & Hs).
  all: erewrite bind_run by exact Hs; destruct s1; by eexists.
Qed.

Lemma start_from_total ts i s : ∃ s', start_from w i ts s = (Ok tt, s').
Proof.
  revert i s. induction ts as [|t ts IH]; intros i s; [by eexists|].
  cbn [start_from].
  assert (∃ s1, match t with
                | Scheduled code => start_task w i code
                | _ => mret tt
                end s = (Ok tt, s1)) as [s1 Hs].
  { destruct t; try by eexists. apply start_task_total. }
  erewrite bind_run by exact Hs. apply IH.
Qed.

Lemma wake_task_total i s : ∃ s', wake_task w i s = (Ok tt, s').
Proof.
  unfold wake_task. erewrite bind_run by reflexivity.
  destruct (tasks s !! i) as [[code|code wake reply|? ?]|]; try by eexists.
  erewrite bind_run by reflexivity.
  match goal with |- context [try_ ?m] =>
    destruct (try_total m (set_clock (clock s `max` wake) s))
      as (r & s1 & Hs) end.
  erewrite bind_run by exact Hs.
  do 2 erewrite bind_run by reflexivity. by eexists.
Qed.

Lemma foldM_wake_total (l : list (nat * nat)) s :
  ∃ s', foldM (λ _ d, wake_task w d.2) tt l s = (Ok tt, s').
Proof.
  revert s. induction l as [|d l IH]; intros s; [by eexists|].
  cbn [foldM]. destruct (wake_task_total d.2 s) as [s1 Hs].
  erewrite bind_run by exact Hs. apply IH.
Qed.

Lemma suspend_until_total until s :
  ∃ s', suspend_until w until s = (Ok tt, s').
Proof.
  unfold suspend_until, start_scheduled.
  destruct (start_from_total (tasks s) 0 s) as [s1 Hs].
  erewrite bind_run; [|erewrite bind_run by reflexivity; exact Hs].
  erewrite bind_run by reflexivity.
  destruct (foldM_wake_total
              (sort_by_time (due_from until 0 (tasks s1))) s1) as [s2 Hs2].
  erewrite bind_run by exact Hs2.
  erewrite bind_run by reflexivity. by eexists.
Qed.
End loop.

(** ** [asyncio.gather] over the downloads *)

Section gather_downloads.
Variable w : world.

Lemma resume_download_run t0 item s :
  ∃ s', resume_download w t0 item s =
        (match download_outcome w t0 item with
         | inl e => Raise e
         | inr a => Ok a
         end, s').
Proof.
  unfold resume_download, download_outcome.
  destruct (outcome (http_get w item.2 t0)) as [e|response]; cbn [settle].
  - erewrite bind_raise by reflexivity. by eexists.
  - erewrite bind_run by reflexivity. cbn [co_resume download_file].
    unfold raise_for_status. destruct (is_success response).
    + do 2 erewrite bind_run by reflexivity. by eexists.
    + erewrite bind_raise by reflexivity. by eexists.
Qed.

Lemma gather_start_download item s :
  gather_start (download_file w item.1 item.2) s =
  (Ok (download_delay w (clock s) item, resume_download w (clock s) item),
   set_trace (trace s ++ [HttpGet (clock s) item.2]) s).
Proof.
  unfold gather_start, download_delay, resume_download.
  destruct s as [c h ts out tr].
  erewrite bind_run by reflexivity. reflexivity.
Qed.

Lemma mapM_gather_start sources s :
  ∃ s', clock s' = clock s ∧
    mapM gather_start
      ((λ item, download_file w item.1 item.2) <$> sources) s =
    (Ok ((λ item, (download_delay w (clock s) item,
                   resume_download w (clock s) item)) <$> sources), s').
Proof.
  revert s. induction sources as [|item sources IH]; intros s.
  { by eexists. }
  cbn [fmap list_fmap mapM].
  erewrite bind_run by apply gather_start_download.
  destruct (IH (set_trace (trace s ++ [HttpGet (clock s) item.2]) s))
    as (s' & Hc & Hm).
  erewrite bind_run by exact Hm.
  destruct s; cbn in *. by eexists.
Qed.

Lemma gather_resume_download t0 table d i item s :
  ∃ s', gather_resume w t0 table (d, (i, resume_download w t0 item)) s =
        (match download_outcome w t0 item with
         | inl e => Raise e
         | inr a => Ok (<[i := Some a]> table)
         end, s').
Proof.
  unfold gather_resume.
  destruct (suspend_until_total w (t0 + d) s) as [s1 Hs1].
  destruct (resume_download_run t0 item s1) as [s2 Hs2].
  erewrite bind_run by exact Hs1.
  destruct (download_outcome w t0 item) as [e|a].
  - erewrite bind_raise by exact Hs2. by eexists.
  - erewrite bind_run by exact Hs2. by eexists.
Qed.

Lemma foldM_gather_resume t0 table l s :
  ∃ s', foldM (gather_resume w t0) table
          (prod_map id (prod_map id (resume_download w t0)) <$> l) s
        = (match collect w t0 table l with
           | inl e => Raise e
           | inr table' => Ok table'
           end, s').
Proof.
  revert table s.
  induction l as [|[d [i item]] l IH]; intros table s.
  { by eexists. }
  cbn [fmap list_fmap foldM collect prod_map fst snd id].
  destruct (gather_resume_download t0 table d i item s) as [s1 Hs1].
  destruct (download_outcome w t0 item) as [e|a].
  - erewrite bind_raise by exact Hs1. by eexists.
  - erewrite bind_run by exact Hs1. apply IH.
Qed.

Lemma gather_downloads_run sources s :
  ∃ s', gather w ((λ item, download_file w item.1 item.2) <$> sources) s =
    (match collect w (clock s) (replicate (length sources) None)
             (completions w (clock s) sources) with
     | inl e => Raise e
     | inr table => Ok (omap id table)
     end, s').
Proof.
  unfold gather, completions. erewrite bind_run by reflexivity.
  destruct (mapM_gather_start sources s) as (s1 & Hc & Hm).
  erewrite bind_run by exact Hm.
  rewrite length_fmap, imap_fmap.
  match goal with |- context [sort_by_time ?l] =>
    replace l with
      (prod_map id (prod_map id (resume_download w (clock s))) <$>
         imap (λ i item, (download_delay w (clock s) item, (i, item)))
           sources)
  end.
  2:{ rewrite fmap_imap. apply imap_ext. by intros i item _. }
  rewrite sort_by_time_fmap.
  match goal with |- context [foldM _ ?t (_ <$> ?l)] =>
    destruct (foldM_gather_resume (clock s) t l s1) as [s2 Hs2];
    destruct (collect w (clock s) t l) as [e|table]
  end.
  - erewrite bind_raise by exact Hs2. by eexists.
  - erewrite bind_run by exact Hs2. by eexists.
Qed.
End gather_downloads.

Section collect.
Variables (w : world) (t0 : time).
Implicit Types (table : list (option (string * string)))
  (l : list (time * (nat * (string * string)))).

Lemma collect_inl table l e :
  collect w t0 table l = inl e →
  ∃ pre c post, l = pre ++ c :: post ∧
    download_outcome w t0 c.2.2 = inl e ∧
    Forall (λ c', fetched w t0 c'.2.2) pre.
Proof.
  revert table. induction l as [|[d [i item]] l IH]; intros table; [done|].
  cbn [collect]. destruct (download_outcome w t0 item) as [e'|a] eqn:Ho.
  - intros [= ->]. by exists [], (d, (i, item)), l.
  - intros (pre & c & post & -> & ? & ?)%IH.
    exists ((d, (i, item)) :: pre), c, post. repeat split; [done|].
    constructor; [by exists a|done].
Qed.

Lemma collect_inr table l table' :
  collect w t0 table l = inr table' →
  Forall (λ c, fetched w t0 c.2.2) l ∧ table' = fill w t0 table l.
Proof.
  revert table. induction l as [|[d [i item]] l IH]; intros table.
  { by intros [= ->]. }
  unfold fill. cbn [collect foldl fst snd]. unfold downloaded at 2.
  destruct (download_outcome w t0 item) as [e'|a] eqn:Ho; [done|].
  intros [? ->]%IH. split; [|done]. constructor; [by exists a|done].
Qed.

Lemma fill_cons table c l :
  fill w t0 table (c :: l)
  = fill w t0 (<[c.2.1 := Some (downloaded w t0 c.2.2)]> table) l.
Proof. done. Qed.

Lemma fill_length table l : length (fill w t0 table l) = length table.
Proof.
  revert table. induction l as [|c l IH]; intros table; [done|].
  by rewrite fill_cons, IH, length_insert.
Qed.

Lemma fill_other table l j :
  j ∉ l.*2.*1 → fill w t0 table l !! j = table !! j.
Proof.
  revert table. induction l as [|c l IH]; intros table; [done|].
  rewrite !fmap_cons, not_elem_of_cons. intros [? ?].
  rewrite fill_cons, IH by done.
  by rewrite list_lookup_insert_ne.
Qed.

Lemma fill_at table l j x :
  (j < length table)%nat →
  j ∈ l.*2.*1 →
  (∀ c, c ∈ l → c.2.1 = j → c.2.2 = x) →
  fill w t0 table l !! j = Some (Some (downloaded w t0 x)).
Proof.
  revert table. induction l as [|c l IH]; intros table Hj Hin Hx.
  { by apply elem_of_nil in Hin. }
  rewrite fill_cons.
  destruct (decide (j ∈ l.*2.*1)) as [Hl|Hl].
  - apply IH; [|done|].
    + by rewrite length_insert.
    + intros c' ?. apply Hx. by right.
  - rewrite !fmap_cons in Hin. apply elem_of_cons in Hin as [->|?]; [|done].
    rewrite fill_other by done.
    rewrite (Hx c) by (done || by left).
    by apply list_lookup_insert_eq.
Qed.
End collect.

(** ** The context loader *)

Lemma dict_dom (results : list (string * string)) :
  dom (dict results) = list_to_set results.*1.
Proof.
  unfold dict.
  enough (∀ m : gmap string string,
    dom (foldl (λ m kv, <[kv.1 := kv.2]> m) m results)
    = dom m ∪ list_to_set results.*1) as ->.
  { by rewrite dom_empty_L, (left_id_L ∅ (∪)). }
  induction results as [|kv results IH]; intros m; cbn [foldl].
  { by rewrite fmap_nil, list_to_set_nil, (right_id_L ∅ (∪)). }
  rewrite IH, dom_insert_L, fmap_cons, list_to_set_cons.
  by rewrite (comm_L (∪) {[kv.1]} (dom m)), (assoc_L (∪)).
Qed.

Lemma downloaded_name w t0 item : (downloaded w t0 item).1 = item.1.
Proof.
  unfold downloaded, download_outcome.
  destruct (outcome _); [done|]. by destruct (is_success _).
Qed.

Lemma omap_id_Some {A B} (f : A → B) (l : list A) :
  omap id ((Some ∘ f) <$> l) = f <$> l.
Proof. induction l as [|x l IH]; [done|]. cbn. by rewrite IH. Qed.

Section loader.
Variables (w : world) (t0 : time) (sources : list (string * string)).

Lemma completions_elem c :
  c ∈ completions w t0 sources ↔
  sources !! c.2.1 = Some c.2.2 ∧ c.1 = download_delay w t0 c.2.2.
Proof.
  unfold completions. rewrite sort_by_time_perm, elem_of_lookup_imap.
  split.
  - by intros (i & item & -> & ?).
  - intros [? ?]. exists c.2.1, c.2.2. split; [|done].
    destruct c as [d [i item]]; cbn in *. by subst.
Qed.

Lemma collect_all_fetched table :
  collect w t0 (replicate (length sources) None) (completions w t0 sources)
  = inr table →
  Forall (fetched w t0) sources ∧
  omap id table = downloaded w t0 <$> sources.
Proof.
  intros [Hall ->]%collect_inr. split.
  - apply Forall_lookup. intros i item Hi.
    rewrite Forall_forall in Hall.
    apply (Hall (download_delay w t0 item, (i, item))).
    by apply completions_elem.
  - rewrite <-omap_id_Some. f_equal. apply list_eq. intros j.
    rewrite list_lookup_fmap.
    destruct (sources !! j) as [x|] eqn:Hj; cbn.
    + apply fill_at.
      * rewrite length_replicate. by eapply lookup_lt_Some.
      * apply list_elem_of_fmap. exists (j, x). split; [done|].
        apply list_elem_of_fmap. exists (download_delay w t0 x, (j, x)).
        split; [done|]. by apply completions_elem.
      * intros c [Hc _]%completions_elem <-. congruence.
    + apply lookup_ge_None. rewrite fill_length, length_replicate.
      by apply lookup_ge_None.
Qed.

Lemma collect_first_error table e :
  collect w t0 table (completions w t0 sources) = inl e →
  ∃ item, item ∈ sources ∧ download_outcome w t0 item = inl e ∧
    ∀ item', item' ∈ sources → ¬ fetched w t0 item' →
      (download_delay w t0 item ≤ download_delay w t0 item')%nat.
Proof.
  intros (pre & c & post & Hl & He & Hpre)%collect_inl.
  assert (c ∈ completions w t0 sources) as [Hc Hd]%completions_elem.
  { rewrite Hl, elem_of_app, elem_of_cons. auto. }
  exists c.2.2. split; [by eapply list_elem_of_lookup_2|]. split; [done|].
  intros item' [i' Hi']%list_elem_of_lookup Hfail.
  assert ((download_delay w t0 item', (i', item')) ∈ completions w t0 sources)
    as Hin by (by apply completions_elem).
  pose proof (sort_by_time_sorted
    (imap (λ i item, (download_delay w t0 item, (i, item))) sources)) as Hs.
  fold (completions w t0 sources) in Hs. rewrite Hl in Hin, Hs.
  apply elem_of_app in Hin as [Hin|Hin].
  { rewrite Forall_forall in Hpre. by apply Hpre in Hin. }
  apply elem_of_cons in Hin as [<-|Hin]; [done|].
  apply StronglySorted_app_1_r, StronglySorted_cons in Hs as [Hs _].
  rewrite Forall_forall in Hs. apply Hs in Hin. unfold earlier in Hin.
  cbn in Hin. by rewrite <-Hd.
Qed.

Lemma get_sqlite_sources_run s :
  ∃ s', get_sqlite_sources w sources s =
    (match collect w (clock s) (replicate (length sources) None)
             (completions w (clock s) sources) with
     | inl e => Raise e
     | inr table => Ok (dict (omap id table))
     end, s').
Proof.
  unfold get_sqlite_sources.
  destruct (gather_downloads_run w sources
    (set_stdout (stdout s ++ [[Lit "Downloading SQLite source files..."]]) s))
    as [s1 Hg].
  assert (clock (set_stdout
     (stdout s ++ [[Lit "Downloading SQLite source files..."]]) s) = clock s)
    as Hc by (by destruct s).
  rewrite Hc in Hg.
  do 2 erewrite bind_run by reflexivity.
  destruct (collect w (clock s) _ _) as [e|table].
  - erewrite bind_raise by exact Hg. by eexists.
  - erewrite bind_run by exact Hg.
    do 2 erewrite bind_run by reflexivity. by eexists.
Qed.
End loader.

(** C4. The context loader is all or nothing.  When [get_sqlite_sources]
    returns, the keys of the mapping are exactly the requested names, the
    mapping is the [dict] of the downloaded pairs and every download has
    succeeded.  When it raises, the exception is that of a failed download of
    the requested set, and no failed download completes before it: the first
    error is the one that propagates, and no mapping is returned. *)
Theorem context_loader_all_or_nothing (w : world)
    (sources : list (string * string)) (s : state) :
  match (get_sqlite_sources w sources s).1 with
  | Ok mapping =>
      dom mapping = list_to_set sources.*1 ∧
      mapping = dict (downloaded w (clock s) <$> sources) ∧
      Forall (fetched w (clock s)) sources
  | Raise e =>
      ∃ item, item ∈ sources ∧
        download_outcome w (clock s) item = inl e ∧
        ∀ item', item' ∈ sources → ¬ fetched w (clock s) item' →
          (download_delay w (clock s) item
           ≤ download_delay w (clock s) item')%nat
  end.
Proof.
  destruct (get_sqlite_sources_run w sources s) as [s' ->]. cbn [fst].
  destruct (collect w (clock s) _ _) as [e|table] eqn:Hcollect.
  - by eapply collect_first_error.
  - apply collect_all_fetched in Hcollect as [Hall ->].
    split; [|done].
    rewrite dict_dom, <-list_fmap_compose. f_equal.
    apply list_fmap_ext. intros ? item _. apply downloaded_name.
Qed.

(** C10. With no resource to fetch, [get_sqlite_sources] returns the empty
    mapping, and [create_initial_message] then raises [KeyError] at the
    lookup of ["btree.h"]. *)
Theorem empty_resource_set (w : world) (s : state) :
  (get_sqlite_sources w [] s).1 = Ok ∅ ∧
  (create_initial_message w [] s).1 = Raise (KeyError "btree.h").
Proof.
  destruct s as [c h ts out tr].
  unfold create_initial_message, get_sqlite_sources, gather, sources_getitem.
  split; reflexivity.
Qed.

(** ** The loader when no task is alive *)

Lemma bind_cong {A B} (m m' : M A) (f f' : A → M B) s :
  m s = m' s → (∀ a s1, f a s1 = f' a s1) → (m ≫= f) s = (m' ≫= f') s.
Proof.
  unfold mbind, M_bind. intros -> Hf. destruct (m' s) as [[a|e] s1]; auto.
Qed.

Section quiet_loader.
Variable w : world.

Lemma resume_download_state t0 item s :
  resume_download w t0 item s =
  match download_outcome w t0 item with
  | inl e => (Raise e, s)
  | inr a =>
      (Ok a,
       set_stdout (stdout s ++ [[Lit ("Successfully downloaded " +:+ item.1)]])
         s)
  end.
Proof.
  unfold resume_download, download_outcome.
  destruct (outcome (http_get w item.2 t0)) as [e|response]; cbn [settle].
  - by erewrite bind_raise by reflexivity.
  - erewrite bind_run by reflexivity. cbn [co_resume download_file].
    unfold raise_for_status. destruct (is_success response).
    + by do 2 erewrite bind_run by reflexivity.
    + by erewrite bind_raise by reflexivity.
Qed.

Lemma mapM_gather_start_state sources s :
  mapM gather_start
    ((λ item, download_file w item.1 item.2) <$> sources) s =
  (Ok ((λ item, (download_delay w (clock s) item,
                 resume_download w (clock s) item)) <$> sources),
   set_trace (trace s ++ ((λ item, HttpGet (clock s) item.2) <$> sources)) s).
Proof.
  revert s. induction sources as [|item sources IH]; intros s.
  { destruct s. cbn. by rewrite app_nil_r. }
  cbn [fmap list_fmap mapM].
  erewrite bind_run by apply gather_start_download.
  erewrite bind_run by apply IH.
  destruct s; cbn. by rewrite <-app_assoc.
Qed.


Lemma gather_resume_download_state t0 table d i item s :
  quiet s →
  gather_resume w t0 table (d, (i, resume_download w t0 item)) s =
  let s1 := set_clock (clock s `max` (t0 + d)) s in
  match download_outcome w t0 item with
  | inl e => (Raise e, s1)
  | inr a =>
      (Ok (<[i := Some a]> table),
       set_stdout
         (stdout s1 ++ [[Lit ("Successfully downloaded " +:+ item.1)]]) s1)
  end.
Proof.
  intros Hs. unfold gather_resume.
  erewrite bind_run by (by apply suspend_until_quiet).
  pose proof (resume_download_state t0 item
                (set_clock (clock s `max` (t0 + d)) s)) as Hr.
  cbn zeta. destruct (download_outcome w t0 item) as [e|a].
  - by erewrite bind_raise by exact Hr.
  - by erewrite bind_run by exact Hr.
Qed.

Lemma foldM_gather_resume_state t0 table l s :
  quiet s →
  foldM (gather_resume w t0) table
    (prod_map id (prod_map id (resume_download w t0)) <$> l) s
  = (match collect w t0 table l with
     | inl e => Raise e
     | inr table' => Ok table'
     end, collect_state w t0 l s).
Proof.
  revert table s.
  induction l as [|[d [i item]] l IH]; intros table s Hs; [done|].
  cbn [fmap list_fmap foldM collect collect_state prod_map fst snd id].
  pose proof (gather_resume_download_state t0 table d i item s Hs) as Hr.
  cbn zeta in Hr. destruct (download_outcome w t0 item) as [e|a].
  - by erewrite bind_raise by exact Hr.
  - erewrite bind_run by exact Hr. apply IH. by destruct s.
Qed.

Lemma gather_downloads_state sources s :
  quiet s →
  gather w ((λ item, download_file w item.1 item.2) <$> sources) s =
  (match collect w (clock s) (replicate (length sources) None)
           (completions w (clock s) sources) with
   | inl e => Raise e
   | inr table => Ok (omap id table)
   end,
   collect_state w (clock s) (completions w (clock s) sources)
     (set_trace
        (trace s ++ ((λ item, HttpGet (clock s) item.2) <$> sources)) s)).
Proof.
  intros Hs. unfold gather, completions. erewrite bind_run by reflexivity.
  erewrite bind_run by apply mapM_gather_start_state.
  rewrite length_fmap, imap_fmap.
  match goal with |- context [sort_by_time ?l] =>
    replace l with
      (prod_map id (prod_map id (resume_download w (clock s))) <$>
         imap (λ i item, (download_delay w (clock s) item, (i, item)))
           sources)
  end.
  2:{ rewrite fmap_imap. apply imap_ext. by intros i item _. }
  rewrite sort_by_time_fmap.
  match goal with |- context [foldM _ ?t (_ <$> ?l)] =>
    pose proof (foldM_gather_resume_state (clock s) t l
      (set_trace
        (trace s ++ ((λ item, HttpGet (clock s) item.2) <$> sources)) s))
      as Hf;
    destruct (collect w (clock s) t l) as [e|table]
  end.
  - erewrite bind_raise; [reflexivity|]. apply Hf. by destruct s.
  - erewrite bind_run; [reflexivity|]. apply Hf. by destruct s.
Qed.

Lemma get_sqlite_sources_state sources s :
  quiet s →
  get_sqlite_sources w sources s
  = (loader_result w (clock s) sources, loader_state w sources s).
Proof.
  intros Hs. unfold get_sqlite_sources, loader_state, loader_result.
  do 2 erewrite bind_run by reflexivity.
  pose proof (gather_downloads_state sources
    (set_stdout (stdout s ++ [[Lit "Downloading SQLite source files..."]]) s))
    as Hg.
  assert (clock (set_stdout
     (stdout s ++ [[Lit "Downloading SQLite source files..."]]) s) = clock s)
    as Hc by (by destruct s).
  rewrite Hc in Hg.
  assert (set_trace
            (trace (set_stdout
               (stdout s ++ [[Lit "Downloading SQLite source files..."]]) s) ++
             ((λ item, HttpGet (clock s) item.2) <$> sources))
            (set_stdout
               (stdout s ++ [[Lit "Downloading SQLite source files..."]]) s)
          = set_trace (trace s ++ ((λ item, HttpGet (clock s) item.2) <$> sources))
              (set_stdout
                 (stdout s ++ [[Lit "Downloading SQLite source files..."]]) s))
    as Ht by (by destruct s).
  rewrite Ht in Hg. cbn zeta.
  destruct (collect w (clock s) _ _) as [e|table].
  - erewrite bind_raise; [reflexivity|]. apply Hg. by destruct s.
  - erewrite bind_run by (apply Hg; by destruct s).
    do 2 erewrite bind_run by reflexivity. reflexivity.
Qed.

End quiet_loader.

Section with_usage.
Variables (f : request → time → usage → usage) (w : world).

Lemma collect_with_usage t0 table l :
  collect (with_usage f w) t0 table l = collect w t0 table l.
Proof.
  revert table. induction l as [|[d [i item]] l IH]; intros table; [done|].
  cbn [collect]. change (download_outcome (with_usage f w) t0 item)
    with (download_outcome w t0 item).
  destruct (download_outcome w t0 item); [done|apply IH].
Qed.

Lemma collect_state_with_usage t0 l s :
  collect_state (with_usage f w) t0 l s = collect_state w t0 l s.
Proof.
  revert s. induction l as [|[d [i item]] l IH]; intros s; [done|].
  cbn [collect_state]. change (download_outcome (with_usage f w) t0 item)
    with (download_outcome w t0 item).
  destruct (download_outcome w t0 item); [done|apply IH].
Qed.

Lemma create_initial_message_with_usage sources s :
  quiet s →
  create_initial_message (with_usage f w) sources s
  = create_initial_message w sources s.
Proof.
  intros Hs. unfold create_initial_message.
  apply bind_cong; [|reflexivity].
  rewrite !get_sqlite_sources_state by done.
  unfold loader_state, loader_result.
  change (completions (with_usage f w)) with (completions w).
  by rewrite collect_with_usage, collect_state_with_usage.
Qed.
End with_usage.


(** ** The demonstrations from a fresh kernel *)

Lemma split_at_first {A} (P : A → bool) (l : list A) x l1 y l2 :
  Forall (λ a, P a = false) l → P y = true →
  l ++ [x] = l1 ++ y :: l2 → l1 = l ∧ y = x ∧ l2 = [].
Proof.
  intros Hl Hy. revert l1. induction Hl as [|a l Ha Hl IH]; intros l1.
  - destruct l1 as [|b l1]; cbn; [by intros [= -> <-]|].
    intros [= _ H]. by destruct l1.
  - destruct l1 as [|b l1]; cbn.
    + intros [= -> _]. congruence.
    + intros [= -> H]. by destruct (IH _ H) as (-> & -> & ->).
Qed.

Lemma no_split {A} (P : A → bool) (l : list A) l1 y l2 :
  Forall (λ a, P a = false) l → P y = true → l ≠ l1 ++ y :: l2.
Proof.
  intros Hl Hy ->. apply Forall_app in Hl as [_ Hl].
  apply Forall_cons in Hl as [Hl _]. congruence.
Qed.

Section demos.
Variable w : world.

Lemma create_initial_message_context s r s1 :
  fresh_kernel s →
  create_initial_message w SQLITE_SOURCES_notebook s = (r, s1) →
  trace s1 = trace s ++ [HttpGet (clock s) btree_h_url;
                         HttpGet (clock s) btree_c_url] ∧
  match r with
  | Ok im =>
      im = VRef 5 ∧
      ∃ bh bc, s1 = context_state (clock s1)
                      (strftime (wall_clock w (clock s1))) bh bc
                      (stdout s1) (trace s1)
  | Raise _ => True
  end.
Proof.
  intros Hs H.
  destruct (create_initial_message_run w s r s1 Hs H)
    as (Ht & Htr & _ & _ & Hr).
  split; [done|]. destruct r as [im|e]; [|done].
  destruct Hr as (-> & rh & rc & _ & _ & _ & _ & Ho). split; [done|].
  exists (body rh), (body rc). unfold context_state.
  destruct s1; cbn in *. by subst.
Qed.

Lemma speculative_demo_split s r s' :
  speculative_prompt_caching_demo w SQLITE_SOURCES_notebook s = (r, s') →
  ∃ r1 s1, create_initial_message w SQLITE_SOURCES_notebook s = (r1, s1) ∧
    match r1 with
    | Ok im => speculative_with_context w AsyncAnthropic im s1 = (r, s')
    | Raise e => r = Raise e ∧ s' = s1
    end.
Proof.
  unfold speculative_prompt_caching_demo. intros H.
  apply bind_inv in H as ([r1 s1] & H1 & H). exists r1, s1. split; [done|].
  destruct r1; [done|]. by injection H as <- <-.
Qed.

Lemma standard_demo_split s r s' :
  standard_prompt_caching_demo w SQLITE_SOURCES_notebook s = (r, s') →
  ∃ r1 s1, create_initial_message w SQLITE_SOURCES_notebook s = (r1, s1) ∧
    match r1 with
    | Ok im => standard_with_context w AsyncAnthropic im s1 = (r, s')
    | Raise e => r = Raise e ∧ s' = s1
    end.
Proof.
  unfold standard_prompt_caching_demo. intros H.
  apply bind_inv in H as ([r1 s1] & H1 & H). exists r1, s1. split; [done|].
  destruct r1; [done|]. by injection H as <- <-.
Qed.
Lemma speculative_demo_run s r s' :
  fresh_kernel s →
  speculative_prompt_caching_demo w SQLITE_SOURCES_notebook s = (r, s') →
  let fetches := [HttpGet (clock s) btree_h_url;
                  HttpGet (clock s) btree_c_url] in
  (∃ e, create_initial_message w SQLITE_SOURCES_notebook s = (Raise e, s') ∧
        r = Raise e ∧ trace s' = trace s ++ fetches) ∨
  (∃ t1 bh bc out,
     let now := strftime (wall_clock w t1) in
     let s1 := context_state t1 now bh bc out (trace s ++ fetches) in
     create_initial_message w SQLITE_SOURCES_notebook s = (Ok (VRef 5), s1) ∧
     speculative_with_context w AsyncAnthropic (VRef 5) s1 = (r, s')).
Proof.
  intros Hs (r1 & s1 & H1 & H)%speculative_demo_split.
  destruct (create_initial_message_context s r1 s1 Hs H1) as [Htr Hr].
  destruct r1 as [im|e].
  - right. destruct Hr as (-> & bh & bc & Hs1).
    exists (clock s1), bh, bc, (stdout s1). cbn zeta.
    rewrite <-Htr, <-Hs1. done.
  - left. destruct H as [-> ->]. by exists e.
Qed.

Lemma standard_demo_run s r s' :
  fresh_kernel s →
  standard_prompt_caching_demo w SQLITE_SOURCES_notebook s = (r, s') →
  let fetches := [HttpGet (clock s) btree_h_url;
                  HttpGet (clock s) btree_c_url] in
  (∃ e, create_initial_message w SQLITE_SOURCES_notebook s = (Raise e, s') ∧
        r = Raise e ∧ trace s' = trace s ++ fetches) ∨
  (∃ t1 bh bc out,
     let now := strftime (wall_clock w t1) in
     let s1 := context_state t1 now bh bc out (trace s ++ fetches) in
     create_initial_message w SQLITE_SOURCES_notebook s = (Ok (VRef 5), s1) ∧
     standard_with_context w AsyncAnthropic (VRef 5) s1 = (r, s')).
Proof.
  intros Hs (r1 & s1 & H1 & H)%standard_demo_split.
  destruct (create_initial_message_context s r1 s1 Hs H1) as [Htr Hr].
  destruct r1 as [im|e].
  - right. destruct Hr as (-> & bh & bc & Hs1).
    exists (clock s1), bh, bc, (stdout s1). cbn zeta.
    rewrite <-Htr, <-Hs1. done.
  - left. destruct H as [-> ->]. by exists e.
Qed.
End demos.





(** C2.  In every run of the speculative demonstration, the streamed
    request is the last event; before it come the probe, sent at some
    [t_fork], the completion of the probe at [t_fork] plus its delay and
    the end of the three seconds of typing; and the request is sent at the
    later of these two times. *)
Theorem final_request_after_join (w : world) (s : state) r s' :
  fresh_kernel s →
  speculative_prompt_caching_demo w SQLITE_SOURCES_notebook s = (r, s') →
  ∃ new, trace s' = trace s ++ new ∧
    ∀ before t req after,
      new = before ++ StreamSent t req :: after →
      ∃ t_fork probe reply,
        let t_probe := t_fork + delay (messages_create w probe t_fork) in
        let t_sleep := t_fork + 3 * hz w in
        CreateSent t_fork probe ∈ before ∧
        TaskDone t_probe 0 reply ∈ before ∧
        SleepDone t_sleep ∈ before ∧
        t = t_probe `max` t_sleep ∧
        after = [].
Proof.
  intros Hs H.
  destruct (speculative_demo_run w s r s' Hs H)
    as [(e & _ & -> & Htr)|(t1 & bh & bc & out & _ & Hrun)].
  { eexists. split; [exact Htr|]. intros before t req after Hnew.
    exfalso. revert Hnew. apply (no_split is_stream_sent); [|done].
    by repeat constructor. }
  apply speculative_with_context_run in Hrun
    as (_ & _ & _ & _ & Hrun). cbn zeta in Hrun.
  destruct (outcome (messages_create w (probe_request _ bh bc) t1))
    as [e|m] eqn:Hp.
  - destruct Hrun as (-> & _ & Htr). rewrite <-app_assoc in Htr.
    eexists. split; [exact Htr|]. intros before t req after Hnew.
    exfalso. revert Hnew. apply (no_split is_stream_sent); [|done].
    destruct (decide _); by repeat constructor.
  - destruct Hrun as (Htr & _ & _).
    match type of Htr with _ = (?a ++ ?F) ++ ?C :: ?J ++ [?S] =>
      replace ((a ++ F) ++ C :: J ++ [S]) with (a ++ (F ++ C :: J) ++ [S])
        in Htr by (by rewrite <-!app_assoc)
    end.
    eexists. split; [exact Htr|]. intros before t req after Hnew.
    apply (split_at_first is_stream_sent) in Hnew as (-> & [= -> ->] & ->);
      [|destruct (decide _); by repeat constructor|done].
    exists t1, (probe_request (strftime (wall_clock w t1)) bh bc),
      (probe_result (inr m)).
    cbn zeta.
    split_and!; [| | |done..].
    all: destruct (decide _).
    all: rewrite !elem_of_app, !elem_of_cons; auto 10.
Qed.

(** A run in which the probe (45 ticks) outlasts the typing (30 ticks). *)
Lemma final_request_after_join_witness :
  ∃ new,
    trace (speculative_prompt_caching_demo (served 0 probe_ok)
             SQLITE_SOURCES_notebook initial_state).2 = [] ++ new ∧
    ∃ before req, new = before ++ [StreamSent 46 req] ∧
      SleepDone 31 ∈ before ∧ TaskDone 46 0 (inr VNone) ∈ before.
Proof.
  destruct (final_request_after_join (served 0 probe_ok) initial_state
    (speculative_prompt_caching_demo (served 0 probe_ok)
       SQLITE_SOURCES_notebook initial_state).1
    (speculative_prompt_caching_demo (served 0 probe_ok)
       SQLITE_SOURCES_notebook initial_state).2)
    as (new & Htr & Hnew).
  - split; reflexivity.
  - by destruct (speculative_prompt_caching_demo _ _ _).
  - exists new. split; [exact Htr|].
    vm_compute in Htr. subst new.
    eexists [_; _; _; _; _], _. split; [reflexivity|].
    split; [do 3 right; left|do 4 right; left].
Defined.

Lemma first_token_blank a (stream : list (time * text)) :
  Forall blank stream.*2 → first_token a stream = None.
Proof.
  revert a. induction stream as [|[d x] stream IH]; intros a; [done|].
  rewrite fmap_cons, Forall_cons. cbn. intros [Hx Hs].
  apply strip_truthy in Hx as ->. by apply IH.
Qed.

Lemma first_token_spec a (pre : list (time * text)) d x post :
  Forall blank pre.*2 → ¬ blank x →
  first_token a (pre ++ (d, x) :: post)
  = Some (a + sum_list pre.*1 + d, post).
Proof.
  revert a. induction pre as [|[d' x'] pre IH]; intros a.
  - intros _ Hx. cbn. destruct (truthy (strip x)) eqn:Ht.
    + do 2 f_equal. lia.
    + by apply strip_truthy in Ht.
  - rewrite fmap_cons, Forall_cons. cbn. intros [Hx' Hpre] Hx.
    apply strip_truthy in Hx' as ->. rewrite IH by done.
    do 2 f_equal. lia.
Qed.

(** C6.  When a demonstration returns [(ttft, total)], its last event is
    the streamed request, and for the reply to that request: if the texts
    before some text are all blank and that text is not, [ttft] is the time
    from the request to that text; if all texts are blank, [ttft] is
    [None]; [total] is the time from the request to the end of the
    stream. *)
Theorem time_to_first_token (w : world) (s : state) ttft total s' :
  fresh_kernel s →
  speculative_prompt_caching_demo w SQLITE_SOURCES_notebook s
    = (Ok (ttft, total), s') ∨
  standard_prompt_caching_demo w SQLITE_SOURCES_notebook s
    = (Ok (ttft, total), s') →
  ∃ before t req,
    trace s' = trace s ++ before ++ [StreamSent t req] ∧
    let st := messages_stream w req t in
    (∀ pre d x post,
       chunks st = pre ++ (d, x) :: post →
       Forall blank pre.*2 → ¬ blank x →
       ttft = Some (sum_list pre.*1 + d)) ∧
    (Forall blank (chunks st).*2 → ttft = None) ∧
    total = sum_list (chunks st).*1 + closing st ∧
    clock s' = t + total.
Proof.
  intros Hs H.
  assert (∃ before t req,
    trace s' = trace s ++ before ++ [StreamSent t req] ∧
    let st := messages_stream w req t in
    let total' := sum_list (chunks st).*1 + closing st in
    clock s' = t + total' ∧
    Ok (ttft, total) = match final st with
        | inl e => Raise e
        | inr _ => Ok (fst <$> first_token 0 (chunks st), total')
        end) as (before & t & req & Htr & Hc & Hr).
  { destruct H as [H|H].
    - destruct (speculative_demo_run w s _ s' Hs H)
        as [(e & _ & [=] & _)|(t1 & bh & bc & out & _ & Hrun)].
      apply speculative_with_context_run in Hrun
        as (_ & _ & _ & _ & Hrun). cbn zeta in Hrun.
      destruct (outcome (messages_create w (probe_request _ bh bc) t1))
        as [e|m]; [by destruct Hrun as ([=] & _)|].
      destruct Hrun as (Htr & Hc & Hr).
      match type of Htr with _ = (?a ++ ?F) ++ ?C :: ?J ++ [?S] =>
        replace ((a ++ F) ++ C :: J ++ [S]) with (a ++ (F ++ C :: J) ++ [S])
          in Htr by (by rewrite <-!app_assoc)
      end.
      eexists _, _, _. split; [exact Htr|split; [exact Hc|exact Hr]].
    - destruct (standard_demo_run w s _ s' Hs H)
        as [(e & _ & [=] & _)|(t1 & bh & bc & out & _ & Hrun)].
      apply standard_with_context_run in Hrun
        as (_ & _ & _ & _ & Htr & Hc & Hr). cbn zeta in Hc, Hr.
      match type of Htr with _ = (?a ++ ?F) ++ [?C; ?S] =>
        replace ((a ++ F) ++ [C; S]) with (a ++ (F ++ [C]) ++ [S])
          in Htr by (by rewrite <-!app_assoc)
      end.
      eexists _, _, _. split; [exact Htr|split; [exact Hc|exact Hr]]. }
  exists before, t, req. split; [done|]. cbn zeta in *.
  destruct (final (messages_stream w req t)); [done|].
  injection Hr as -> ->. split_and!; [| |done..].
  - intros pre d x post -> Hpre Hx. by rewrite first_token_spec.
  - intros Hall. by rewrite first_token_blank.
Qed.

(** A reply whose first two texts are empty and blank. *)
Lemma time_to_first_token_witness :
  ∃ before t req,
    trace (speculative_prompt_caching_demo (served 0 probe_ok)
             SQLITE_SOURCES_notebook initial_state).2
    = [] ++ before ++ [StreamSent t req] ∧
    chunks (messages_stream (served 0 probe_ok) req t)
    = [(2, []); (1, [32; 10]%N)] ++ (4, [32; 66; 116]%N) :: [(1, [83; 104]%N)] ∧
    Some 7 = Some (sum_list [2; 1] + 4).
Proof.
  destruct (time_to_first_token (served 0 probe_ok) initial_state
              (Some 7) 13
    (speculative_prompt_caching_demo (served 0 probe_ok)
       SQLITE_SOURCES_notebook initial_state).2)
    as (before & t & req & Htr & Hfirst & _).
  - split; reflexivity.
  - left. vm_compute. reflexivity.
  - exists before, t, req. split; [exact Htr|]. split; [reflexivity|].
    apply (Hfirst [(2, []); (1, [32; 10]%N)] 4 [32; 66; 116]%N
             [(1, [83; 104]%N)]).
    + reflexivity.
    + repeat constructor.
    + intros Hb. apply Forall_cons in Hb as [_ Hb].
      apply Forall_cons in Hb as [Hb _]. discriminate Hb.
Defined.



(** ** The usage of the replies *)

Lemma speculative_with_usage f w s :
  fresh_kernel s →
  same_course (speculative_prompt_caching_demo w SQLITE_SOURCES_notebook s)
    (speculative_prompt_caching_demo (with_usage f w)
       SQLITE_SOURCES_notebook s).
Proof.
  intros Hs.
  assert (quiet s) as Hq by (destruct Hs as [_ Ht]; unfold quiet; by rewrite Ht).
  destruct (speculative_prompt_caching_demo w _ s) as [r s1] eqn:H.
  destruct (speculative_prompt_caching_demo (with_usage f w) _ s)
    as [r' s1'] eqn:H'.
  unfold same_course. cbn [fst snd].
  destruct (speculative_demo_run w s r s1 Hs H) as
    [(e & Hi & -> & _)|(t1 & bh & bc & out & Hi & Hrun)].
  all: destruct (speculative_demo_run (with_usage f w) s r' s1' Hs H') as
    [(e' & Hi' & -> & _)|(t1' & bh' & bc' & out' & Hi' & Hrun')].
  all: rewrite create_initial_message_with_usage in Hi' by done.
  all: cbn zeta in *; rewrite Hi in Hi'.
  1: by injection Hi' as <- <-.
  1,2: discriminate Hi'.
  apply (f_equal snd) in Hi'. cbn [snd] in Hi'. rewrite <-Hi' in Hrun'.
  clear Hi Hi' H H'.
  apply speculative_with_context_run in Hrun
    as (Hts & _ & _ & _ & Hrun).
  apply speculative_with_context_run in Hrun'
    as (Hts' & _ & _ & _ & Hrun').
  cbn zeta in *.
  cbn [with_usage messages_create messages_stream hz delay outcome
       chunks closing final] in Hts', Hrun'.
  rewrite Hts, Hts'.
  destruct (outcome (messages_create w (probe_request _ bh bc) t1))
    as [e|m]; cbn [map_usage] in *.
  - destruct Hrun as (-> & -> & ->), Hrun' as (-> & -> & ->). done.
  - destruct Hrun as (-> & -> & ->), Hrun' as (-> & -> & ->).
    split_and!; try done.
    by destruct (final (messages_stream w _ _)).
Qed.

Lemma standard_with_usage f w s :
  fresh_kernel s →
  same_course (standard_prompt_caching_demo w SQLITE_SOURCES_notebook s)
    (standard_prompt_caching_demo (with_usage f w)
       SQLITE_SOURCES_notebook s).
Proof.
  intros Hs.
  assert (quiet s) as Hq by (destruct Hs as [_ Ht]; unfold quiet; by rewrite Ht).
  destruct (standard_prompt_caching_demo w _ s) as [r s1] eqn:H.
  destruct (standard_prompt_caching_demo (with_usage f w) _ s)
    as [r' s1'] eqn:H'.
  unfold same_course. cbn [fst snd].
  destruct (standard_demo_run w s r s1 Hs H) as
    [(e & Hi & -> & _)|(t1 & bh & bc & out & Hi & Hrun)].
  all: destruct (standard_demo_run (with_usage f w) s r' s1' Hs H') as
    [(e' & Hi' & -> & _)|(t1' & bh' & bc' & out' & Hi' & Hrun')].
  all: rewrite create_initial_message_with_usage in Hi' by done.
  all: cbn zeta in *; rewrite Hi in Hi'.
  1: by injection Hi' as <- <-.
  1,2: discriminate Hi'.
  apply (f_equal snd) in Hi'. cbn [snd] in Hi'. rewrite <-Hi' in Hrun'.
  clear Hi Hi' H H'.
  apply standard_with_context_run in Hrun
    as (Hts & _ & _ & _ & Htr & Hc & Hr).
  apply standard_with_context_run in Hrun'
    as (Hts' & _ & _ & _ & Htr' & Hc' & Hr').
  cbn zeta in *.
  cbn [with_usage messages_create messages_stream hz delay outcome
       chunks closing final] in Htr', Hc', Hr'.
  rewrite Hts, Hts', Htr, Htr', Hc, Hc', Hr, Hr'.
  split_and!; try done.
  by destruct (final (messages_stream w _ _)).
Qed.

(** C7.  [print_query_statistics] prints the four counts of the usage as
    they are, one per line after the heading, and changes nothing else; and
    the usage never decides anything: replacing the usage of every reply of
    the service by any other leaves the result, the time, the events and the
    tasks of both demonstrations as they were. *)
Theorem statistics_surfaced_unmodified (w : world) (s : state)
    (f : request → time → usage → usage)
    (query_type : string) (input output cache_read cache_creation : Z) :
  fresh_kernel s →
  print_query_statistics
    {| msg_usage :=
         {| input_tokens := input; output_tokens := output;
            cache_read_input_tokens := Attr (Some cache_read);
            cache_creation_input_tokens := Attr (Some cache_creation) |} |}
    query_type s
  = (Ok tt,
     set_stdout
       (stdout s ++
        [[Lit (NL +:+ query_type +:+ " query statistics:")];
         [Lit (TAB +:+ "Input tokens: " +:+ pretty input)];
         [Lit (TAB +:+ "Output tokens: " +:+ pretty output)];
         [Lit (TAB +:+ "Cache read input tokens: " +:+ pretty cache_read)];
         [Lit (TAB +:+ "Cache creation input tokens: "
               +:+ pretty cache_creation)]]) s) ∧
  same_course
    (speculative_prompt_caching_demo w SQLITE_SOURCES_notebook s)
    (speculative_prompt_caching_demo (with_usage f w)
       SQLITE_SOURCES_notebook s) ∧
  same_course
    (standard_prompt_caching_demo w SQLITE_SOURCES_notebook s)
    (standard_prompt_caching_demo (with_usage f w)
       SQLITE_SOURCES_notebook s).
Proof.
  intros Hs. split; [|split].
  - destruct s as [c h ts out tr]. unfold print_query_statistics.
    cbn [msg_usage input_tokens output_tokens cache_read_input_tokens
         cache_creation_input_tokens str_attribute].
    do 4 erewrite bind_run by reflexivity.
    unfold print, modify, set_stdout; cbn [stdout clock objects tasks trace].
    by rewrite <-!app_assoc.
  - by apply speculative_with_usage.
  - by apply standard_with_usage.
Qed.

(** The counts 22, 330, 151629 and 0. *)
Lemma statistics_surfaced_unmodified_witness :
  stdout (print_query_statistics {| msg_usage := cache_hit |}
            "Speculative Caching" initial_state).2
  = [[Lit (NL +:+ "Speculative Caching query statistics:")];
     [Lit (TAB +:+ "Input tokens: 22")];
     [Lit (TAB +:+ "Output tokens: 330")];
     [Lit (TAB +:+ "Cache read input tokens: 151629")];
     [Lit (TAB +:+ "Cache creation input tokens: 0")]] ∧
  (speculative_prompt_caching_demo
     (with_usage (λ _ _ _, cache_hit) (served 0 probe_ok))
     SQLITE_SOURCES_notebook initial_state).1
  = Ok (Some 7, 13).
Proof.
  destruct (statistics_surfaced_unmodified (served 0 probe_ok) initial_state
              (λ _ _ _, cache_hit) "Speculative Caching" 22 330 151629 0
              (conj eq_refl eq_refl))
    as (Hprint & (Hr & _) & _).
  split.
  - change (print_query_statistics {| msg_usage := cache_hit |})
      with (print_query_statistics
              {| msg_usage :=
                   {| input_tokens := 22; output_tokens := 330;
                      cache_read_input_tokens := Attr (Some 151629%Z);
                      cache_creation_input_tokens := Attr (Some 0%Z) |} |}).
    rewrite Hprint. vm_compute. reflexivity.
  - rewrite Hr. vm_compute. reflexivity.
Defined.

(** C3 fails in the code: the timestamp has a resolution of one second.
    Two runs that download the same sources and read the clock within the
    same second build context messages that serialize to the same JSON. *)
Theorem same_second_same_context (w1 w2 : world) (s1 s2 : state)
    initial_message1 initial_message2 s1' s2' :
  fresh_kernel s1 → fresh_kernel s2 →
  create_initial_message w1 SQLITE_SOURCES_notebook s1
    = (Ok initial_message1, s1') →
  create_initial_message w2 SQLITE_SOURCES_notebook s2
    = (Ok initial_message2, s2') →
  (∀ url, outcome (http_get w1 url (clock s1))
          = outcome (http_get w2 url (clock s2))) →
  strftime (wall_clock w1 (clock s1')) = strftime (wall_clock w2 (clock s2')) →
  ∃ j, to_json initial_message1 s1' = (Ok j, s1') ∧
       to_json initial_message2 s2' = (Ok j, s2').
Proof.
  intros Hs1 Hs2 H1 H2 Hweb Hnow.
  apply create_initial_message_run in H1
    as (_ & _ & _ & _ & -> & rh1 & rc1 & Hh1 & Hc1 & _ & _ & Ho1); [|done].
  apply create_initial_message_run in H2
    as (_ & _ & _ & _ & -> & rh2 & rc2 & Hh2 & Hc2 & _ & _ & Ho2); [|done].
  rewrite Hweb, Hh2 in Hh1. rewrite Hweb, Hc2 in Hc1.
  injection Hh1 as <-. injection Hc1 as <-.
  rewrite <-Hnow in Ho2.
  eexists. split; apply to_json_serialize.
  - rewrite Ho1. reflexivity.
  - rewrite Ho2. reflexivity.
Qed.

(** Two runs a quarter of a millisecond apart. *)
Lemma same_second_same_context_witness :
  wall_clock (served 0 probe_ok) 1 ≠ wall_clock (served 250 probe_ok) 1 ∧
  ∃ j s1' s2',
    create_initial_message (served 0 probe_ok) SQLITE_SOURCES_notebook
      initial_state = (Ok (VRef 5), s1') ∧
    create_initial_message (served 250 probe_ok) SQLITE_SOURCES_notebook
      initial_state = (Ok (VRef 5), s2') ∧
    to_json (VRef 5) s1' = (Ok j, s1') ∧
    to_json (VRef 5) s2' = (Ok j, s2').
Proof.
  split; [discriminate|].
  destruct (same_second_same_context
    (served 0 probe_ok) (served 250 probe_ok) initial_state initial_state
    (VRef 5) (VRef 5)
    (create_initial_message (served 0 probe_ok) SQLITE_SOURCES_notebook
       initial_state).2
    (create_initial_message (served 250 probe_ok) SQLITE_SOURCES_notebook
       initial_state).2) as (j & Hj1 & Hj2).
  - split; reflexivity.
  - split; reflexivity.
  - vm_compute. reflexivity.
  - vm_compute. reflexivity.
  - reflexivity.
  - vm_compute. reflexivity.
  - exists j. eexists _, _. split; [|split; [|split; [exact Hj1|exact Hj2]]].
    + vm_compute. reflexivity.
    + vm_compute. reflexivity.
Defined.

(** ** The probe *)


Lemma module_heap_lookup (h : heap) i o :
  module_heap `prefix_of` h → module_heap !! i = Some o → h !! i = Some o.
Proof. intros [rest ->] Hi. by apply lookup_app_l_Some. Qed.




Lemma serialize_VStr fuel h x : serialize fuel h (VStr x) = Some (JStr x).
Proof. by destruct fuel. Qed.

Lemma serialize_client_args fuel (h : heap) a b max_tokens :
  h !! a = Some (ODict [("system", VStr system_instruction);
                        ("max_tokens", VInt max_tokens);
                        ("temperature", VInt 0);
                        ("extra_headers", VRef b)]) →
  h !! b = Some (ODict [("anthropic-beta",
                         VStr "prompt-caching-2024-07-31")]) →
  serialize (S (S fuel)) h (VRef a)
  = Some (JObject (client_args_json max_tokens)).
Proof.
  intros Ha Hb. cbn [serialize]. rewrite Ha.
  cbn [serialize_items serialize]. rewrite Hb.
  cbn [serialize_items]. by rewrite serialize_VStr.
Qed.

Lemma to_json_client_args (s : state) a b max_tokens :
  objects s !! a = Some (ODict [("system", VStr system_instruction);
                                ("max_tokens", VInt max_tokens);
                                ("temperature", VInt 0);
                                ("extra_headers", VRef b)]) →
  objects s !! b = Some (ODict [("anthropic-beta",
                                 VStr "prompt-caching-2024-07-31")]) →
  to_json (VRef a) s = (Ok (JObject (client_args_json max_tokens)), s).
Proof.
  intros Ha Hb. apply to_json_serialize.
  assert (1 < length (objects s) ∨ a = b)%nat as [Hlen| ->].
  { destruct (decide (a = b)) as [|Hab]; [by right|left].
    apply lookup_lt_Some in Ha, Hb. lia. }
  - destruct (length (objects s)) as [|[|n]] eqn:Hl; [lia..|].
    by apply (serialize_client_args n _ a b).
  - rewrite Ha in Hb. discriminate Hb.
Qed.




(** * More properties *)

(** ** The loader *)

(* lemmas *)
Lemma dict_foldl_other (l : list (string * string)) (m : gmap string string) k :
  k ∉ l.*1 → foldl (λ m kv, <[kv.1 := kv.2]> m) m l !! k = m !! k.
Proof.
  revert m. induction l as [|[k' v'] l IH]; intros m; [done|].
  rewrite fmap_cons, not_elem_of_cons. cbn. intros [? ?].
  rewrite IH by done. by rewrite lookup_insert_ne.
Qed.

Lemma dict_lookup_NoDup (l : list (string * string)) k v :
  NoDup l.*1 → (k, v) ∈ l → dict l !! k = Some v.
Proof.
  unfold dict. generalize (∅ : gmap string string).
  induction l as [|[k' v'] l IH]; intros m Hnd Hin.
  { by apply elem_of_nil in Hin. }
  rewrite fmap_cons in Hnd. apply NoDup_cons in Hnd as [Hk' Hnd].
  apply elem_of_cons in Hin as [[= <- <-]|Hin]; cbn.
  - rewrite dict_foldl_other by done. by rewrite lookup_insert_eq.
  - by apply IH.
Qed.

Lemma dict_size_NoDup (l : list (string * string)) :
  NoDup l.*1 → size (dict l) = length l.
Proof.
  intros Hnd. rewrite <-size_dom, dict_dom, size_list_to_set by done.
  by rewrite length_fmap.
Qed.

(** With distinct names, the mapping [get_sqlite_sources] returns has one
    entry per resource, and the entry of a name is the body of the
    successful response to the request for its URL. *)
Theorem get_sqlite_sources_content (w : world)
    (sources : list (string * string)) (s : state) mapping s' :
  NoDup sources.*1 →
  get_sqlite_sources w sources s = (Ok mapping, s') →
  size mapping = length sources ∧
  ∀ filename url, (filename, url) ∈ sources →
    ∃ response,
      outcome (http_get w url (clock s)) = inr response ∧
      is_success response = true ∧
      mapping !! filename = Some (body response).
Proof.
  intros Hnd H.
  destruct (get_sqlite_sources_run w sources s) as [s'' Hrun].
  rewrite H in Hrun.
  destruct (collect w (clock s) _ _) as [e|table] eqn:Hcollect; [done|].
  injection Hrun as -> _.
  apply collect_all_fetched in Hcollect as [Hall ->].
  assert ((downloaded w (clock s) <$> sources).*1 = sources.*1) as Hnames.
  { rewrite <-list_fmap_compose. apply list_fmap_ext.
    intros ? item _. apply downloaded_name. }
  split.
  { rewrite dict_size_NoDup, length_fmap; [done|by rewrite Hnames]. }
  intros filename url Hin.
  rewrite Forall_forall in Hall. destruct (Hall _ Hin) as [a Ha].
  unfold download_outcome in Ha. cbn [fst snd] in Ha.
  destruct (outcome (http_get w url (clock s))) as [e|response] eqn:Ho;
    [done|].
  destruct (is_success response) eqn:Hok; [|done]. injection Ha as <-.
  exists response. split_and!; [done..|].
  apply dict_lookup_NoDup; [by rewrite Hnames|].
  apply list_elem_of_fmap. exists (filename, url). split; [|done].
  unfold downloaded, download_outcome. cbn [fst snd]. by rewrite Ho, Hok.
Qed.

Lemma get_sqlite_sources_content_witness :
  ∃ mapping,
    (get_sqlite_sources (served 0 probe_ok) SQLITE_SOURCES_notebook
       initial_state).1 = Ok mapping ∧
    size mapping = 2 ∧
    mapping !! "btree.h" = Some btree_h_url.
Proof.
  destruct (get_sqlite_sources (served 0 probe_ok) SQLITE_SOURCES_notebook
              initial_state) as [[mapping|e] s'] eqn:H.
  - exists mapping. split; [done|].
    assert (NoDup SQLITE_SOURCES_notebook.*1) as Hnd
      by (apply (bool_decide_unpack _); vm_compute; exact I).
    destruct (get_sqlite_sources_content _ _ _ _ _ Hnd H)
      as [Hsize Hcontent].
    split; [exact Hsize|].
    destruct (Hcontent "btree.h" btree_h_url) as (response & Ho & _ & ->).
    + left.
    + by injection Ho as <-.
  - vm_compute in H. discriminate H.
Defined.

Section loader_state.
Variables (w : world) (t0 : time).
Implicit Types (l : list (time * (nat * (string * string)))) (s : state).


Lemma collect_state_clock_fetched l s :
  (t0 ≤ clock s)%nat →
  Forall (λ c, fetched w t0 c.2.2) l →
  clock (collect_state w t0 l s)
  = clock s `max` (t0 + max_list_with fst l).
Proof.
  revert s. induction l as [|[d [i item]] l IH]; intros s Hs Hl.
  { cbn. lia. }
  apply Forall_cons in Hl as [[a Ha] Hl]. cbn [collect_state fst snd] in *.
  rewrite Ha, IH; [|destruct s; cbn in *; lia|done].
  destruct s; cbn. lia.
Qed.

Lemma collect_state_clock_failed table l s e :
  StronglySorted earlier l →
  collect w t0 table l = inl e →
  ∃ c, c ∈ l ∧ download_outcome w t0 c.2.2 = inl e ∧
    clock (collect_state w t0 l s) = clock s `max` (t0 + c.1).
Proof.
  revert table s. induction l as [|[d [i item]] l IH]; intros table s Hs;
    [done|].
  apply StronglySorted_cons in Hs as [Hd Hs]. cbn [collect collect_state].
  destruct (download_outcome w t0 item) as [e'|a] eqn:Ho.
  - intros [= ->]. exists (d, (i, item)). split; [left|].
    split; [done|]. by destruct s.
  - intros (c & Hc & He & Hclock)%(IH _ (set_stdout
        (stdout (set_clock (clock s `max` (t0 + d)) s) ++
         [[Lit ("Successfully downloaded " +:+ item.1)]])
        (set_clock (clock s `max` (t0 + d)) s)) Hs).
    exists c. split; [by right|]. split; [done|].
    rewrite Hclock. rewrite Forall_forall in Hd. apply Hd in Hc.
    unfold earlier in Hc. destruct s; cbn in *. lia.
Qed.

Lemma collect_state_stdout_fetched l s :
  Forall (λ c, fetched w t0 c.2.2) l →
  stdout (collect_state w t0 l s) = stdout s ++ (download_line <$> l).
Proof.
  revert s. induction l as [|[d [i item]] l IH]; intros s Hl.
  { cbn. by rewrite app_nil_r. }
  apply Forall_cons in Hl as [[a Ha] Hl]. cbn [collect_state fst snd] in *.
  rewrite Ha, IH by done. destruct s; cbn. by rewrite <-app_assoc.
Qed.

Lemma collect_state_stdout l s :
  ∃ k, stdout (collect_state w t0 l s)
       = stdout s ++ (download_line <$> take k l).
Proof.
  revert s. induction l as [|[d [i item]] l IH]; intros s.
  { exists 0. cbn. by rewrite app_nil_r. }
  cbn [collect_state]. destruct (download_outcome w t0 item).
  - exists 0. destruct s; cbn. by rewrite app_nil_r.
  - destruct (IH (set_stdout
        (stdout (set_clock (clock s `max` (t0 + d)) s) ++
         [[Lit ("Successfully downloaded " +:+ item.1)]])
        (set_clock (clock s `max` (t0 + d)) s))) as [k ->].
    exists (S k). destruct s; cbn. by rewrite <-app_assoc.
Qed.
End loader_state.

Lemma max_list_with_imap {A B} (f : A → nat) (h : nat → A → B) (l : list A) :
  max_list_with fst (imap (λ i x, (f x, h i x)) l) = max_list_with f l.
Proof.
  revert h. induction l as [|x l IH]; intros h; [done|].
  cbn. f_equal. apply (IH (λ i, h (S i))).
Qed.

Lemma completions_delays w t0 sources :
  max_list_with fst (completions w t0 sources)
  = max_list_with (download_delay w t0) sources.
Proof.
  unfold completions. rewrite sort_by_time_perm.
  apply (max_list_with_imap _ (λ i item, (i, item))).
Qed.

Ltac through_stdout :=
  repeat match goal with
  | |- context [trace (set_stdout ?a ?b)] =>
      change (trace (set_stdout a b)) with (trace b)
  | |- context [objects (set_stdout ?a ?b)] =>
      change (objects (set_stdout a b)) with (objects b)
  | |- context [tasks (set_stdout ?a ?b)] =>
      change (tasks (set_stdout a b)) with (tasks b)
  | |- context [clock (set_stdout ?a ?b)] =>
      change (clock (set_stdout a b)) with (clock b)
  end.

Lemma loader_result_collect w t0 sources :
  loader_result w t0 sources =
  match collect w t0 (replicate (length sources) None)
          (completions w t0 sources) with
  | inl e => Raise e
  | inr table => Ok (dict (omap id table))
  end.
Proof. done. Qed.



(** When no task is alive, a successful [get_sqlite_sources] takes as
    long as its slowest download, and a failed one ends when the download
    whose error it raises ends. *)
Theorem get_sqlite_sources_duration (w : world)
    (sources : list (string * string)) (s : state) r s' :
  quiet s →
  get_sqlite_sources w sources s = (r, s') →
  match r with
  | Ok _ =>
      clock s' = clock s + max_list_with (download_delay w (clock s)) sources
  | Raise e =>
      ∃ item, item ∈ sources ∧
        download_outcome w (clock s) item = inl e ∧
        clock s' = clock s + download_delay w (clock s) item
  end.
Proof.
  intros Hq H. rewrite get_sqlite_sources_state in H by done.
  injection H as <- <-. unfold loader_state. cbn zeta.
  rewrite loader_result_collect.
  destruct (collect w (clock s) _ _) as [e|table] eqn:Hcollect.
  - eapply collect_state_clock_failed in Hcollect
      as (c & [Hc Hd]%completions_elem & He & Hclock);
      [|apply sort_by_time_sorted].
    exists c.2.2. split; [by eapply list_elem_of_lookup_2|]. split; [done|].
    rewrite Hclock, Hd. destruct s; cbn. lia.
  - apply collect_inr in Hcollect as [Hall _].
    through_stdout.
    rewrite collect_state_clock_fetched, completions_delays;
      [|by destruct s|done].
    destruct s; cbn. lia.
Qed.

Lemma get_sqlite_sources_duration_witness :
  clock (get_sqlite_sources (served 0 probe_ok) SQLITE_SOURCES_notebook
           initial_state).2 = 0 + 1.
Proof.
  pose proof (get_sqlite_sources_duration (served 0 probe_ok)
           SQLITE_SOURCES_notebook initial_state
           (get_sqlite_sources (served 0 probe_ok) SQLITE_SOURCES_notebook
              initial_state).1
           (get_sqlite_sources (served 0 probe_ok) SQLITE_SOURCES_notebook
              initial_state).2) as H.
  apply H; [constructor|apply surjective_pairing].
Defined.

Lemma collect_state_stdout_failed w t0 table
    (l : list (time * (nat * (string * string)))) s e :
  collect w t0 table l = inl e →
  ∃ k, (k < length l)%nat ∧
    stdout (collect_state w t0 l s)
    = stdout s ++ (download_line <$> take k l).
Proof.
  revert table s. induction l as [|[d [i item]] l IH]; intros table s; [done|].
  cbn [collect collect_state].
  destruct (download_outcome w t0 item) as [e'|a].
  - intros _. exists 0. split; [cbn; lia|].
    destruct s; cbn. by rewrite app_nil_r.
  - intros (k & Hk & ->)%(IH _ (set_stdout
        (stdout (set_clock (clock s `max` (t0 + d)) s) ++
         [[Lit ("Successfully downloaded " +:+ item.1)]])
        (set_clock (clock s `max` (t0 + d)) s))).
    exists (S k). split; [cbn; lia|]. destruct s; cbn. by rewrite <-app_assoc.
Qed.

Lemma completions_length w t0 sources :
  length (completions w t0 sources) = length sources.
Proof.
  unfold completions. by rewrite sort_by_time_perm, length_imap.
Qed.

(** When no task is alive, [get_sqlite_sources] prints its first line,
    then one line per download that has succeeded, in the order in which
    they complete, then on success only the line that gives the number of
    entries and the duration; on failure at least one download has no
    line. *)
Theorem get_sqlite_sources_output (w : world)
    (sources : list (string * string)) (s : state) r s' :
  quiet s →
  get_sqlite_sources w sources s = (r, s') →
  ∃ k,
    stdout s' =
      stdout s ++ [[Lit "Downloading SQLite source files..."]]
      ++ (download_line <$> take k (completions w (clock s) sources))
      ++ match r with
         | Ok source_files =>
             [[Lit ("Downloaded " +:+ pretty (size source_files)
                    +:+ " files in ");
               Fixed2 (clock s' - clock s); Lit " seconds"]]
         | Raise _ => []
         end ∧
    match r with
    | Ok _ => k = length sources
    | Raise _ => (k < length sources)%nat
    end.
Proof.
  intros Hq H. rewrite get_sqlite_sources_state in H by done.
  injection H as <- <-. unfold loader_state. cbn zeta.
  rewrite loader_result_collect.
  destruct (collect w (clock s) _ _) as [e|table] eqn:Hcollect.
  - eapply collect_state_stdout_failed in Hcollect as (k & Hk & ->).
    rewrite completions_length in Hk. exists k. split; [|done].
    rewrite app_nil_r. destruct s; cbn. by rewrite <-app_assoc.
  - apply collect_inr in Hcollect as [Hall _].
    exists (length sources). split; [|done].
    rewrite <-(completions_length w (clock s)), firstn_all.
    through_stdout. unfold set_stdout at 1. cbn [stdout].
    rewrite collect_state_stdout_fetched by done.
    destruct s; cbn. by rewrite <-!app_assoc.
Qed.

Lemma get_sqlite_sources_output_witness :
  ∃ k,
    stdout (get_sqlite_sources (served 0 probe_ok) SQLITE_SOURCES_notebook
              initial_state).2
    = [] ++ [[Lit "Downloading SQLite source files..."]]
      ++ (download_line <$>
            take k (completions (served 0 probe_ok) 0
                      SQLITE_SOURCES_notebook))
      ++ [[Lit "Downloaded 2 files in "; Fixed2 1; Lit " seconds"]] ∧
    k = 2.
Proof.
  destruct (get_sqlite_sources_output (served 0 probe_ok)
           SQLITE_SOURCES_notebook initial_state
           (get_sqlite_sources (served 0 probe_ok) SQLITE_SOURCES_notebook
              initial_state).1
           (get_sqlite_sources (served 0 probe_ok) SQLITE_SOURCES_notebook
              initial_state).2) as (k & Hout & Hk).
  - constructor.
  - apply surjective_pairing.
  - exists k. split; [|exact Hk]. rewrite Hout. vm_compute in Hk. subst k.
    vm_compute. reflexivity.
Defined.




Section both.
Variable w : world.

(** What both demonstrations have in common once the streamed request is
    sent. *)
Lemma demo_stream s r s' :
  fresh_kernel s →
  speculative_prompt_caching_demo w SQLITE_SOURCES_notebook s = (r, s') ∨
  standard_prompt_caching_demo w SQLITE_SOURCES_notebook s = (r, s') →
  ((∃ e, r = Raise e) ∧
   Forall (λ ev, is_stream_sent ev = false)
     (drop (length (trace s)) (trace s')))
  ∨ ∃ before t req,
      trace s' = trace s ++ before ++ [StreamSent t req] ∧
      Forall (λ ev, is_stream_sent ev = false) before ∧
      let st := messages_stream w req t in
      let total := sum_list (chunks st).*1 + closing st in
      clock s' = t + total ∧
      r = match final st with
          | inl e => Raise e
          | inr _ => Ok (fst <$> first_token 0 (chunks st), total)
          end.
Proof.
  intros Hs [H|H].
  - destruct (speculative_demo_run w s r s' Hs H)
      as [(e & _ & -> & Htr)|(t1 & bh & bc & out & _ & Hrun)].
    { left. split; [by eexists|].
      rewrite Htr, drop_app_length. by repeat constructor. }
    apply speculative_with_context_run in Hrun
      as (_ & _ & _ & _ & Hrun). cbn zeta in Hrun.
    destruct (outcome (messages_create w (probe_request _ bh bc) t1))
      as [e|m].
    + left. destruct Hrun as (-> & _ & ->). split; [by eexists|].
      rewrite <-app_assoc, drop_app_length.
      destruct (decide _); by repeat constructor.
    + right. destruct Hrun as (Htr & Hc & Hr).
      match type of Htr with _ = (?a ++ ?F) ++ ?C :: ?J ++ [?S] =>
        replace ((a ++ F) ++ C :: J ++ [S]) with (a ++ (F ++ C :: J) ++ [S])
          in Htr by (by rewrite <-!app_assoc)
      end.
      eexists _, _, _. split; [exact Htr|]. split; [|by split].
      destruct (decide _); by repeat constructor.
  - destruct (standard_demo_run w s r s' Hs H)
      as [(e & _ & -> & Htr)|(t1 & bh & bc & out & _ & Hrun)].
    { left. split; [by eexists|].
      rewrite Htr, drop_app_length. by repeat constructor. }
    apply standard_with_context_run in Hrun
      as (_ & _ & _ & _ & Htr & Hc & Hr). cbn zeta in Hc, Hr.
    right.
    match type of Htr with _ = (?a ++ ?F) ++ [?C; ?S] =>
      replace ((a ++ F) ++ [C; S]) with (a ++ (F ++ [C]) ++ [S])
        in Htr by (by rewrite <-!app_assoc)
    end.
    eexists _, _, _. split; [exact Htr|]. split; [|by split].
    by repeat constructor.
Qed.
End both.

Lemma first_token_le a stream el rest :
  first_token a stream = Some (el, rest) →
  (el ≤ a + sum_list stream.*1)%nat.
Proof. intros H%first_token_sum. lia. Qed.

(** The time to the first token a demonstration returns never exceeds the
    total time it returns. *)
Theorem first_token_within_total (w : world) (s : state) ttft total s' :
  fresh_kernel s →
  speculative_prompt_caching_demo w SQLITE_SOURCES_notebook s
    = (Ok (Some ttft, total), s') ∨
  standard_prompt_caching_demo w SQLITE_SOURCES_notebook s
    = (Ok (Some ttft, total), s') →
  (ttft ≤ total)%nat.
Proof.
  intros Hs H.
  destruct (demo_stream w s _ s' Hs H)
    as [[[e [=]] _]|(before & t & req & _ & _ & _ & Hr)].
  cbn zeta in Hr. destruct (final (messages_stream w req t)); [done|].
  injection Hr as Hf ->.
  destruct (first_token 0 (chunks (messages_stream w req t)))
    as [[el rest]|] eqn:Hft; [|done].
  injection Hf as ->. apply first_token_le in Hft. lia.
Qed.

Lemma first_token_within_total_witness :
  ∃ ttft total,
    (speculative_prompt_caching_demo (served 0 probe_ok)
       SQLITE_SOURCES_notebook initial_state).1 = Ok (Some ttft, total) ∧
    (ttft ≤ total)%nat.
Proof.
  exists 7, 13. split; [vm_compute; reflexivity|].
  apply (first_token_within_total (served 0 probe_ok) initial_state 7 13
    (speculative_prompt_caching_demo (served 0 probe_ok)
       SQLITE_SOURCES_notebook initial_state).2).
  - split; reflexivity.
  - left. vm_compute. reflexivity.
Defined.

(** In both demonstrations the streamed request is the last event; the
    run ends when the stream does, and it raises the error of the stream
    when the stream ends in one, and returns its times otherwise. *)
Theorem stream_failure_propagates (w : world) (s : state) r s'
    before t req after :
  fresh_kernel s →
  speculative_prompt_caching_demo w SQLITE_SOURCES_notebook s = (r, s') ∨
  standard_prompt_caching_demo w SQLITE_SOURCES_notebook s = (r, s') →
  trace s' = trace s ++ before ++ StreamSent t req :: after →
  after = [] ∧
  clock s' = t + sum_list (chunks (messages_stream w req t)).*1
               + closing (messages_stream w req t) ∧
  match final (messages_stream w req t) with
  | inl e => r = Raise e
  | inr _ => ∃ ttft total, r = Ok (ttft, total)
  end.
Proof.
  intros Hs H Htr.
  destruct (demo_stream w s r s' Hs H)
    as [[_ Hno]|(before' & t' & req' & Htr' & Hno & Hc & Hr)].
  - exfalso. rewrite Htr, drop_app_length in Hno.
    apply Forall_app in Hno as [_ Hno].
    by apply Forall_cons in Hno as [? _].
  - rewrite Htr in Htr'. apply app_inv_head in Htr'.
    symmetry in Htr'.
    apply (split_at_first is_stream_sent) in Htr'
      as (-> & [= -> ->] & ->); [|done..].
    cbn zeta in *. split; [done|]. split; [lia|].
    destruct (final (messages_stream w req' t')); [done|]. by eexists _, _.
Qed.

Lemma stream_failure_propagates_witness :
  (standard_prompt_caching_demo flaky_service SQLITE_SOURCES_notebook
     initial_state).1 = Raise (APIError "overloaded_error") ∧
  clock (standard_prompt_caching_demo flaky_service SQLITE_SOURCES_notebook
           initial_state).2 = 31 + 2 + 1.
Proof.
  destruct (stream_failure_propagates flaky_service initial_state
    (standard_prompt_caching_demo flaky_service SQLITE_SOURCES_notebook
       initial_state).1
    (standard_prompt_caching_demo flaky_service SQLITE_SOURCES_notebook
       initial_state).2
    [HttpGet 0 btree_h_url; HttpGet 0 btree_c_url; SleepDone 31] 31
    (final_request "2025-01-15 12:00:00" btree_h_url btree_c_url) [])
    as (_ & Hc & Hr).
  - split; reflexivity.
  - right. apply surjective_pairing.
  - vm_compute. reflexivity.
  - split; [exact Hr|exact Hc].
Defined.

(** From the same state and in the same world, when the speculative
    demonstration sends its question, the standard one sends the very same
    request, three seconds after the probe was sent; the speculative one
    sends it then or when the probe completes, whichever is later. *)
Theorem speculation_never_sends_earlier (w : world) (s : state)
    r1 s1 r2 s2 before2 t2 req after2 :
  fresh_kernel s →
  standard_prompt_caching_demo w SQLITE_SOURCES_notebook s = (r1, s1) →
  speculative_prompt_caching_demo w SQLITE_SOURCES_notebook s = (r2, s2) →
  trace s2 = trace s ++ before2 ++ StreamSent t2 req :: after2 →
  ∃ before1 t1 t_fork probe,
    trace s1 = trace s ++ before1 ++ [StreamSent t1 req] ∧
    CreateSent t_fork probe ∈ before2 ∧
    t1 = t_fork + 3 * hz w ∧
    t2 = t1 `max` (t_fork + delay (messages_create w probe t_fork)).
Proof.
  intros Hs H1 H2 Htr2.
  destruct (speculative_demo_run w s r2 s2 Hs H2)
    as [(e & _ & -> & Htr)|(t & bh & bc & out & Hi & Hrun)].
  { exfalso. rewrite Htr in Htr2. apply app_inv_head in Htr2.
    revert Htr2. apply (no_split is_stream_sent); by repeat constructor. }
  destruct (standard_demo_run w s r1 s1 Hs H1)
    as [(e & Hi' & _ & _)|(t' & bh' & bc' & out' & Hi' & Hrun')];
    cbn zeta in *; rewrite Hi in Hi'; [done|].
  apply (f_equal snd) in Hi'. cbn [snd] in Hi'. rewrite <-Hi' in Hrun'.
  clear Hi Hi'.
  apply speculative_with_context_run in Hrun as (_ & _ & _ & _ & Hrun).
  apply standard_with_context_run in Hrun' as (_ & _ & _ & _ & Htr1 & _).
  cbn zeta in *.
  destruct (outcome (messages_create w (probe_request _ bh bc) t)) as [e|m].
  { exfalso. destruct Hrun as (_ & _ & Htr). rewrite Htr, <-app_assoc in Htr2.
    apply app_inv_head in Htr2.
    revert Htr2. apply (no_split is_stream_sent); [|done].
    destruct (decide _); by repeat constructor. }
  destruct Hrun as (Htr & _ & _).
  match type of Htr with _ = (?a ++ ?F) ++ ?C :: ?J ++ [?S] =>
    replace ((a ++ F) ++ C :: J ++ [S]) with (a ++ (F ++ C :: J) ++ [S])
      in Htr by (by rewrite <-!app_assoc)
  end.
  rewrite Htr in Htr2. apply app_inv_head in Htr2.
  apply (split_at_first is_stream_sent) in Htr2 as (-> & [= -> ->] & ->);
    [|destruct (decide _); by repeat constructor|done].
  match type of Htr1 with _ = (?a ++ ?F) ++ [?C; ?S] =>
    replace ((a ++ F) ++ [C; S]) with (a ++ (F ++ [C]) ++ [S])
      in Htr1 by (by rewrite <-!app_assoc)
  end.
  eexists _, _, t, (probe_request (strftime (wall_clock w t)) bh bc).
  split; [exact Htr1|]. split; [|split; [done|lia]].
  rewrite !elem_of_app, !elem_of_cons. auto.
Qed.

Lemma speculation_never_sends_earlier_witness :
  ∃ before1 req,
    trace (standard_prompt_caching_demo (served 0 probe_ok)
             SQLITE_SOURCES_notebook initial_state).2
    = [] ++ before1 ++ [StreamSent 31 req] ∧
    last (trace (speculative_prompt_caching_demo (served 0 probe_ok)
                   SQLITE_SOURCES_notebook initial_state).2)
    = Some (StreamSent 46 req).
Proof.
  destruct (speculation_never_sends_earlier (served 0 probe_ok) initial_state
    (standard_prompt_caching_demo (served 0 probe_ok)
       SQLITE_SOURCES_notebook initial_state).1
    (standard_prompt_caching_demo (served 0 probe_ok)
       SQLITE_SOURCES_notebook initial_state).2
    (speculative_prompt_caching_demo (served 0 probe_ok)
       SQLITE_SOURCES_notebook initial_state).1
    (speculative_prompt_caching_demo (served 0 probe_ok)
       SQLITE_SOURCES_notebook initial_state).2
    [HttpGet 0 btree_h_url; HttpGet 0 btree_c_url;
     CreateSent 1 (probe_request "2025-01-15 12:00:00" btree_h_url btree_c_url);
     SleepDone 31; TaskDone 46 0 (inr VNone)]
    46 (final_request "2025-01-15 12:00:00" btree_h_url btree_c_url) [])
    as (before1 & t1 & t_fork & probe & Htr1 & Hin & Ht1 & Ht2).
  - split; reflexivity.
  - apply surjective_pairing.
  - apply surjective_pairing.
  - vm_compute. reflexivity.
  - eexists before1, _. split; [|vm_compute; reflexivity].
    rewrite Htr1. do 3 f_equal.
    apply elem_of_cons in Hin as [[=]|Hin].
    apply elem_of_cons in Hin as [[=]|Hin].
    apply elem_of_cons in Hin as [[= -> ->]|Hin].
    { rewrite Ht1. reflexivity. }
    apply elem_of_cons in Hin as [[=]|Hin].
    apply elem_of_cons in Hin as [[=]|Hin].
    apply elem_of_nil in Hin. destruct Hin.
Defined.



Lemma to_json_DEFAULT_CLIENT_ARGS (s : state) :
  module_heap `prefix_of` objects s →
  to_json DEFAULT_CLIENT_ARGS s = (Ok (JObject (client_args_json 4096)), s).
Proof.
  intros Hh.
  by apply (to_json_client_args s 1 0); eapply module_heap_lookup.
Qed.

(** After a demonstration, however it ends, [DEFAULT_CLIENT_ARGS] still
    serializes to the defaults; every request it has sent names [MODEL] and
    carries the defaults, the probe with [max_tokens] 1. *)
Theorem defaults_intact_after_demo (w : world) (s : state) r s' :
  fresh_kernel s →
  speculative_prompt_caching_demo w SQLITE_SOURCES_notebook s = (r, s') ∨
  standard_prompt_caching_demo w SQLITE_SOURCES_notebook s = (r, s') →
  to_json DEFAULT_CLIENT_ARGS s'
    = (Ok (JObject (client_args_json 4096)), s') ∧
  ∃ new, trace s' = trace s ++ new ∧ Forall uses_defaults new.
Proof.
  intros Hs [H|H].
  - destruct (speculative_demo_run w s r s' Hs H)
      as [(e & Hi & _ & Htr)|(t1 & bh & bc & out & _ & Hrun)].
    + apply create_initial_message_run in Hi as (_ & _ & _ & _ & Ho); [|done].
      split; [apply to_json_DEFAULT_CLIENT_ARGS; by rewrite Ho|].
      eexists. split; [exact Htr|]. by repeat constructor.
    + apply speculative_with_context_run in Hrun
        as (_ & Hpre & _ & _ & Hrun). cbn zeta in Hrun.
      split.
      { apply to_json_DEFAULT_CLIENT_ARGS. etrans; [|exact Hpre].
        by apply prefix_app_r. }
      destruct (outcome (messages_create w (probe_request _ bh bc) t1))
        as [e|m].
      * destruct Hrun as (_ & _ & Htr). rewrite <-app_assoc in Htr.
        eexists. split; [exact Htr|].
        destruct (decide _); by repeat constructor.
      * destruct Hrun as (Htr & _ & _). rewrite <-app_assoc in Htr.
        eexists. split; [exact Htr|].
        destruct (decide _); by repeat constructor.
  - destruct (standard_demo_run w s r s' Hs H)
      as [(e & Hi & _ & Htr)|(t1 & bh & bc & out & _ & Hrun)].
    + apply create_initial_message_run in Hi as (_ & _ & _ & _ & Ho); [|done].
      split; [apply to_json_DEFAULT_CLIENT_ARGS; by rewrite Ho|].
      eexists. split; [exact Htr|]. by repeat constructor.
    + apply standard_with_context_run in Hrun
        as (_ & Hpre & _ & _ & Htr & _). cbn zeta in Htr.
      split.
      { apply to_json_DEFAULT_CLIENT_ARGS. etrans; [|exact Hpre].
        by apply prefix_app_r. }
      rewrite <-app_assoc in Htr.
      eexists. split; [exact Htr|]. by repeat constructor.
Qed.

Lemma defaults_intact_after_demo_witness :
  ∃ new,
    trace (speculative_prompt_caching_demo (served 0 probe_ok)
             SQLITE_SOURCES_notebook initial_state).2 = [] ++ new ∧
    Forall uses_defaults new ∧ length new = 6.
Proof.
  destruct (defaults_intact_after_demo (served 0 probe_ok) initial_state
    (speculative_prompt_caching_demo (served 0 probe_ok)
       SQLITE_SOURCES_notebook initial_state).1
    (speculative_prompt_caching_demo (served 0 probe_ok)
       SQLITE_SOURCES_notebook initial_state).2)
    as (_ & new & Htr & Hnew).
  - split; reflexivity.
  - left. apply surjective_pairing.
  - exists new. split; [exact Htr|]. split; [exact Hnew|].
    vm_compute in Htr. by subst new.
Defined.

(* properties *)
(** The comparison cell raises [TypeError] exactly when a time to first
    token is [None], [ZeroDivisionError] exactly when both are times and
    the standard time to first token or the standard total time is zero;
    when it completes it has printed twelve lines, and when it raises fewer
    than ten, so no improvement. *)
Theorem comparison_cell_outcome (standard_ttft : option time)
    (standard_total : time) (speculative_ttft : option time)
    (speculative_total : time) :
  let run := comparison_cell standard_ttft standard_total
               speculative_ttft speculative_total in
  (run.2 = inl cell_TypeError ↔
     standard_ttft = None ∨ speculative_ttft = None) ∧
  (run.2 = inl cell_ZeroDivisionError ↔
     is_Some speculative_ttft ∧
     (standard_ttft = Some 0 ∨
      is_Some standard_ttft ∧ standard_total = 0)) ∧
  (run.2 = inr tt → length run.1 = 12) ∧
  (run.2 ≠ inr tt → (length run.1 < 10)%nat).
Proof.
  destruct standard_ttft as [[|a]|], speculative_ttft as [b|],
    standard_total as [|c]; cbn.
  all: unfold is_Some; split_and!; try done; try lia.
  all: firstorder (try congruence; eauto).
Qed.

(** When the reply to the standard demonstration holds blank text only,
    the demonstration returns [None] as time to first token, and the
    comparison cell then raises [TypeError] after its first four lines,
    whatever the speculative demonstration returned. *)
Theorem blank_reply_breaks_comparison (w : world) (s : state)
    standard_ttft standard_total s' before t req
    speculative_ttft speculative_total :
  fresh_kernel s →
  standard_prompt_caching_demo w SQLITE_SOURCES_notebook s
    = (Ok (standard_ttft, standard_total), s') →
  trace s' = trace s ++ before ++ [StreamSent t req] →
  Forall blank (chunks (messages_stream w req t)).*2 →
  standard_ttft = None ∧
  comparison_cell standard_ttft standard_total
    speculative_ttft speculative_total
  = ([[Text (times "=" 60)]; [Text "PERFORMANCE COMPARISON"];
      [Text (times "=" 60)]; [Text (NL +:+ "Standard Prompt Caching:")]],
     inl cell_TypeError).
Proof.
  intros Hs H Htr Hblank.
  destruct (demo_stream w s _ s' Hs (or_intror H))
    as [[[e [=]] _]|(before' & t' & req' & Htr' & _ & _ & Hr)].
  rewrite Htr in Htr'. apply app_inv_head in Htr'.
  apply app_inj_tail in Htr' as [_ [= <- <-]].
  cbn zeta in Hr. destruct (final (messages_stream w req t)); [done|].
  rewrite first_token_blank in Hr by done. injection Hr as -> _.
  done.
Qed.

Lemma blank_reply_breaks_comparison_witness :
  (standard_prompt_caching_demo silent_service SQLITE_SOURCES_notebook
     initial_state).1 = Ok (None, 6) ∧
  (comparison_cell None 6 (Some 7) 13).2 = inl cell_TypeError.
Proof.
  destruct (blank_reply_breaks_comparison silent_service initial_state
    None 6
    (standard_prompt_caching_demo silent_service SQLITE_SOURCES_notebook
       initial_state).2
    [HttpGet 0 btree_h_url; HttpGet 0 btree_c_url; SleepDone 31] 31
    (final_request "2025-01-15 12:00:00" btree_h_url btree_c_url)
    (Some 7) 13) as [_ Hcell].
  - split; reflexivity.
  - vm_compute. reflexivity.
  - vm_compute. reflexivity.
  - repeat constructor.
  - split; [vm_compute; reflexivity|]. by rewrite Hcell.
Defined.

(** [print_query_statistics] prints [---] for a cache count the usage does
    not have and [None] for one that holds [None]; it does not raise. *)
Theorem print_query_statistics_missing (query_type : string)
    (input output : Z) (s : state) :
  print_query_statistics
    {| msg_usage :=
         {| input_tokens := input; output_tokens := output;
            cache_read_input_tokens := Missing;
            cache_creation_input_tokens := Attr None |} |}
    query_type s
  = (Ok tt,
     set_stdout
       (stdout s ++
        [[Lit (NL +:+ query_type +:+ " query statistics:")];
         [Lit (TAB +:+ "Input tokens: " +:+ pretty input)];
         [Lit (TAB +:+ "Output tokens: " +:+ pretty output)];
         [Lit (TAB +:+ "Cache read input tokens: ---")];
         [Lit (TAB +:+ "Cache creation input tokens: None")]]) s).
Proof.
  destruct s as [c h ts out tr]. unfold print_query_statistics.
  cbn [msg_usage input_tokens output_tokens cache_read_input_tokens
       cache_creation_input_tokens str_attribute].
  do 4 erewrite bind_run by reflexivity.
  unfold print, modify, set_stdout; cbn [stdout clock objects tasks trace].
  by rewrite <-!app_assoc.
Qed.

Lemma append_cons c (a b : string) : String c a +:+ b = String c (a +:+ b).
Proof. reflexivity. Qed.

Lemma append_length (a b : string) :
  String.length (a +:+ b) = String.length a + String.length b.
Proof.
  induction a as [|c a IH]; [done|].
  rewrite append_cons. cbn [String.length]. by rewrite IH.
Qed.

Lemma append_inv_head (p a b : string) : p +:+ a = p +:+ b → a = b.
Proof.
  induction p as [|c p IH]; [done|]. rewrite !append_cons. intros [= H]. auto.
Qed.

Lemma append_inv_tail (a b r : string) : a +:+ r = b +:+ r → a = b.
Proof.
  revert b. induction a as [|c a IH]; intros [|c' b] H.
  - done.
  - apply (f_equal String.length) in H.
    rewrite !append_length in H. cbn [String.length] in H. lia.
  - apply (f_equal String.length) in H.
    rewrite !append_length in H. cbn [String.length] in H. lia.
  - rewrite !append_cons in H. injection H as -> H. f_equal. by apply IH.
Qed.

Lemma context_text_inj now1 now2 btree_h btree_c :
  context_text now1 btree_h btree_c = context_text now2 btree_h btree_c →
  now1 = now2.
Proof.
  unfold context_text. intros H.
  do 2 apply append_inv_head in H. by apply append_inv_tail in H.
Qed.

(** Two runs that download the same sources build the same context
    message if and only if their timestamps, as printed, are the same. *)
Theorem different_second_different_context (w1 w2 : world) (s1 s2 : state)
    initial_message1 initial_message2 s1' s2' j1 j2 :
  fresh_kernel s1 → fresh_kernel s2 →
  create_initial_message w1 SQLITE_SOURCES_notebook s1
    = (Ok initial_message1, s1') →
  create_initial_message w2 SQLITE_SOURCES_notebook s2
    = (Ok initial_message2, s2') →
  (∀ url, outcome (http_get w1 url (clock s1))
          = outcome (http_get w2 url (clock s2))) →
  to_json initial_message1 s1' = (Ok j1, s1') →
  to_json initial_message2 s2' = (Ok j2, s2') →
  j1 = j2 ↔
  strftime (wall_clock w1 (clock s1')) = strftime (wall_clock w2 (clock s2')).
Proof.
  intros Hs1 Hs2 H1 H2 Hweb Hj1 Hj2.
  apply create_initial_message_run in H1
    as (_ & _ & _ & _ & -> & rh1 & rc1 & Hh1 & Hc1 & _ & _ & Ho1); [|done].
  apply create_initial_message_run in H2
    as (_ & _ & _ & _ & -> & rh2 & rc2 & Hh2 & Hc2 & _ & _ & Ho2); [|done].
  rewrite Hweb, Hh2 in Hh1. rewrite Hweb, Hc2 in Hc1.
  injection Hh1 as <-. injection Hc1 as <-.
  rewrite (to_json_serialize _ _
             (message_json [block_json _ (body rh2) (body rc2)]))
    in Hj1 by (by rewrite Ho1).
  rewrite (to_json_serialize _ _
             (message_json [block_json _ (body rh2) (body rc2)]))
    in Hj2 by (by rewrite Ho2).
  injection Hj1 as <-. injection Hj2 as <-.
  unfold message_json, block_json. split.
  - intros H. apply (context_text_inj _ _ (body rh2) (body rc2)).
    congruence.
  - by intros ->.
Qed.

Lemma different_second_different_context_witness :
  message_json [block_json "2025-01-15 12:00:01" btree_h_url btree_c_url]
  = message_json [block_json "2025-01-15 12:00:41" btree_h_url btree_c_url]
  ↔ strftime (wall_clock ticking 1) = strftime (wall_clock ticking 41).
Proof.
  apply (different_second_different_context ticking ticking
           initial_state (set_clock 40 initial_state) (VRef 5) (VRef 5)
           (create_initial_message ticking SQLITE_SOURCES_notebook
              initial_state).2
           (create_initial_message ticking SQLITE_SOURCES_notebook
              (set_clock 40 initial_state)).2).
  - split; reflexivity.
  - split; reflexivity.
  - vm_compute. reflexivity.
  - vm_compute. reflexivity.
  - reflexivity.
  - vm_compute. reflexivity.
  - vm_compute. reflexivity.
Defined.

(** When no task is alive, the loop over a stream whose first text that is
    not blank comes after blank ones stops at that text: it returns the
    time from [start_time] to its arrival and the texts after it, and
    prints one line; over blank texts only it returns [None], consumes
    them all and prints nothing. *)
Theorem text_stream_loop_stops_at_first_text (w : world) (label : string)
    (start_time : time) (pre : list (time * text)) d x post (s : state) :
  quiet s →
  Forall blank pre.*2 → ¬ blank x →
  let arrival := clock s + (sum_list pre.*1 + d) in
  text_stream_loop w label start_time None (pre ++ (d, x) :: post) s
  = (Ok (Some (arrival - start_time), post),
     set_stdout
       (stdout s ++
        [[Lit (NL +:+ label +:+ " Time to first token: ");
          Fixed2 (arrival - start_time); Lit " seconds"]])
       (set_clock arrival s)) ∧
  text_stream_loop w label start_time None pre s
  = (Ok (None, []), set_clock (clock s + sum_list pre.*1) s).
Proof.
  intros Hq Hpre Hx. cbn zeta.
  rewrite !text_stream_loop_run by done.
  rewrite first_token_spec, first_token_blank by done.
  by rewrite Nat.add_0_l.
Qed.

Lemma text_stream_loop_stops_at_first_text_witness :
  (text_stream_loop (served 0 probe_ok) "🚀" 46 None (chunks answer)
     (context_state 46 "2025-01-15 12:00:00" "btree.h" "btree.c" [] [])).1
  = Ok (Some 7, [(1, [83; 104]%N)]).
Proof.
  pose proof (text_stream_loop_stops_at_first_text (served 0 probe_ok) "🚀" 46
    [(2, []); (1, [32; 10]%N)] 4 [32; 66; 116]%N [(1, [83; 104]%N)]
    (context_state 46 "2025-01-15 12:00:00" "btree.h" "btree.c" [] [])) as H.
  destruct H as [H _].
  - constructor.
  - repeat constructor.
  - intros Hb. apply Forall_cons in Hb as [_ Hb].
    apply Forall_cons in Hb as [Hb _]. discriminate Hb.
  - exact (f_equal fst H).
Defined.

Lemma dict_lookup_None (l : list (string * string)) k :
  k ∉ l.*1 → dict l !! k = None.
Proof.
  intros Hk. apply not_elem_of_dom. by rewrite dict_dom, elem_of_list_to_set.
Qed.

Lemma dict_lookup_is_Some (l : list (string * string)) k :
  k ∈ l.*1 → is_Some (dict l !! k).
Proof.
  intros Hk. apply elem_of_dom. by rewrite dict_dom, elem_of_list_to_set.
Qed.

(** When every download succeeds, [create_initial_message] returns only
    if both ["btree.h"] and ["btree.c"] are among the names; otherwise it
    raises [KeyError] for ["btree.h"] if that is missing, else for
    ["btree.c"]. *)
Theorem create_initial_message_missing_source (w : world)
    (sources : list (string * string)) (s : state) :
  Forall (fetched w (clock s)) sources →
  match (create_initial_message w sources s).1 with
  | Ok _ => "btree.h" ∈ sources.*1 ∧ "btree.c" ∈ sources.*1
  | Raise e =>
      e = KeyError "btree.h" ∧ "btree.h" ∉ sources.*1 ∨
      e = KeyError "btree.c" ∧ "btree.h" ∈ sources.*1 ∧
        "btree.c" ∉ sources.*1
  end.
Proof.
  intros Hall.
  destruct (get_sqlite_sources_run w sources s) as [s' Hrun].
  destruct (collect w (clock s) _ _) as [e|table] eqn:Hcollect.
  { apply collect_first_error in Hcollect as (item & Hin & He & _).
    rewrite Forall_forall in Hall. destruct (Hall _ Hin) as [a Ha].
    congruence. }
  apply collect_all_fetched in Hcollect as [_ Hmap]. rewrite Hmap in Hrun.
  assert ((downloaded w (clock s) <$> sources).*1 = sources.*1) as Hnames.
  { rewrite <-list_fmap_compose. apply list_fmap_ext.
    intros ? item _. apply downloaded_name. }
  unfold create_initial_message.
  erewrite bind_run by exact Hrun. erewrite bind_run by reflexivity.
  unfold sources_getitem.
  destruct (decide ("btree.h" ∈ sources.*1)) as [Hh|Hh].
  - destruct (dict_lookup_is_Some (downloaded w (clock s) <$> sources)
                "btree.h") as [bh Hbh]; [by rewrite Hnames|].
    rewrite Hbh. erewrite bind_run by reflexivity.
    destruct (decide ("btree.c" ∈ sources.*1)) as [Hc|Hc].
    + destruct (dict_lookup_is_Some (downloaded w (clock s) <$> sources)
                  "btree.c") as [bc Hbc]; [by rewrite Hnames|].
      rewrite Hbc. do 4 erewrite bind_run by reflexivity.
      unfold new_dict, alloc. cbn [fst]. split; [exact Hh|exact Hc].
    + rewrite (dict_lookup_None _ "btree.c") by (by rewrite Hnames).
      erewrite bind_raise by reflexivity. cbn. auto.
  - rewrite (dict_lookup_None _ "btree.h") by (by rewrite Hnames).
    erewrite bind_raise by reflexivity. cbn. auto.
Qed.

Lemma create_initial_message_missing_source_witness :
  (create_initial_message (served 0 probe_ok) [("btree.h", btree_h_url)]
     initial_state).1 = Raise (KeyError "btree.c").
Proof.
  pose proof (create_initial_message_missing_source (served 0 probe_ok)
                [("btree.h", btree_h_url)] initial_state) as H.
  destruct (create_initial_message _ _ _) as [[v|e] s'] eqn:Hrun.
  - vm_compute in Hrun. discriminate Hrun.
  - cbn [fst] in *. destruct H as [[_ H]|[-> _]].
    + repeat constructor. by eexists.
    + exfalso. apply H. left.
    + reflexivity.
Defined.
